(* ===== verification/_CoqProject ===== *)
-Q . S2P
Prelude.v
JsValue.v
LangProfile.v
Urls.v
Handlers.v
EventLoop.v
Render.v
ClientSpec.v
