(* ===== verification/Prelude.v ===== *)
(** * A verification development of react-wikipedia-search

    The program is one React function component, [App] in [src/src/App.js].
    It is a search client for the Wikipedia API.  Four pieces of state come
    from [useState]: [results], [searchTerm], [lang] and [loading].  The
    component has five user-facing operations:
    - the language button (the [handleLanguage] handler);
    - the search form ([handleSubmit], which calls [mediaWikiSearch]);
    - the random-article button ([handleRandom]);
    - the clear button (an inline [setResults([])]);
    - the text input (an inline [setSearchTerm]).
    Two of them send an HTTP GET with axios.  When a request settles, its
    promise callbacks ([.then] / [.catch]) update the state.  The JSX in the
    [return] renders the state.  It turns the result objects into list
    items with a deep link to each article.

    ** How the files model the code

    - [Prelude] (this file) holds what the others share:
      - the result type [res] (a value, or a thrown JavaScript error);
      - the writer-with-exceptions monad [wr] that handler bodies are
        written in, with stdpp's [x ← c; k] notation;
      - the [wiki] hint database, the [invc] tactic, and string and list
        lemmas.
    - [JsValue] models the JavaScript values the program handles, which are
      JSON plus [undefined].  It also models the language operations the
      source applies to them:
      - property access, which throws on [undefined] and [null];
      - truthiness, [ToNumber], [ToString] and [>] against [0];
      - [Object.keys] in the ECMAScript key order;
      - the conversion of an array used as a property key.
    - [LangProfile] holds the two language records [langEn] and [langFr]
      and the selection [langChoice] (App.js lines 14-38).
    - [Urls] holds [baseUrl] and the search and random request URLs,
      built by template strings (lines 40, 61, 77), and the article deep
      link (line 174).  It also models what reaches the API server, so
      that round trips through a URL can be stated:
      - the browser's URL parser, which strips tabs and newlines and
        percent-encodes the query;
      - the server's form decoding;
      - MediaWiki's cleanup of control characters.
    - [Handlers] holds the component state as a record [app] (lines 9-12)
      and the effects a handler performs: setter calls, an [axios.get],
      [console.log].  It has one definition per handler: [handleLanguage],
      [handleSubmit], [mediaWikiSearch], [handleRandom], the clear and input
      callbacks, and the two fulfilment callbacks with their [.catch]
      handlers.  Each is a [wr] computation from the state captured when
      the handler's closure was created, which is exactly what the source's
      closures read.  The promise chain [.then(f).catch(g)] is [settle].
    - [EventLoop] holds the world: the component state, the requests in
      flight (each with the closure its callback captured) and the console
      log.  It has an executable [step] over user and network events and
      the reachability relation.  Requests settle in any order, which is
      the only interleaving a single-threaded event loop allows.
    - [Render] holds the [return] JSX as a function from the state to a
      view, or to the error React throws: the spinner, the header, and one
      list item per result with its heading, body and link.
    - [ClientSpec] holds the spec's abstract client (sections 3, 4.1, 8)
      as an inductive step relation [astep], written from the spec and not
      from the code:
      - at most one request in flight;
      - a submit that is a no-op when the term is empty after [trim];
      - the active language's sentinel on an empty answer;
      - [loading] reset at every request's end.
      It also holds the relation [R] between the source's worlds and its
      states, and the runs of both machines.

    ** What the theorems show

    - The handlers, branch by branch ([Handlers]):
      - submit with a non-empty term sends exactly one search in the
        selected language (C1); with an empty term it does nothing (C11);
      - the language toggle, the random button and the clear button
        (C9, C12, C10).
    - The callbacks ([Handlers]):
      - a search response sets the results in the API's order, or the
        sentinel of the captured profile (C2);
      - a random answer shows its only page (C13);
      - a malformed answer resets [loading], then logs (C14);
      - a failure only logs and leaves [loading] on (C6).
    - The URLs ([Urls]):
      - a printable ASCII term free of [& # + %] round-trips to the
        server (C7);
      - every request goes to the locale's host (C18);
      - since the term is not encoded, the server reads every [+] as a
        space, and a [#] cuts the term and the [origin=*] parameter
        (C23).
    - The event loop ([EventLoop]), by induction on reachability:
      - every request in flight is well formed, and its closure matches
        its URL's language (C4);
      - a spinner that is on means a request is in flight or an error was
        logged (C8);
      - without a response the spinner never turns off (C5);
      - from any world, answers are applied in arrival order, so the
        answer to an older query overwrites a newer one's (C19).
    - The view ([Render]):
      - no reachable state crashes the page, given the API's documented
        answers (C3);
      - deep links (C15), the sentinel item (C16), the spinner and header
        (C17);
      - any untitled item after documented hits crashes the page (C21);
        so does any random answer without exactly one page (C22).
    - The spec ([ClientSpec]):
      - every run of the source from related states, whose events keep
        [spec_assumption], is a run of the spec to a related state (C24).
        The assumption holds the spec's own hypotheses (one request at a
        time, documented answers) and excludes the three places where the
        source leaves the spec: failures, whitespace-only submits, and
        toggles while a search is in flight;
      - the last two exclusions are needed.  A toggle followed by a late
        empty answer shows the old language's sentinel, where every spec
        run shows the active one's (C20).  A whitespace-only submit sends
        a request where the spec does nothing (C25).  For failures, C5
        and C6 show that [loading] stays on, where the spec resets it.

    ** Bounds and termination

    Every definition is structurally recursive (on strings, lists or the
    JSON value), so no fuel is needed.  A run is a finite list of events,
    and [run_events] folds [step] over it.  The only machine integer is
    the array-index bound [2^32 - 1] of [JsValue.array_index].

    ** Not modelled

    Styling, the logo, the footer and the [FlipMove] animation wrapper
    produce no state and no behaviour the program depends on.  React's
    scheduling is not modelled: every setter here takes a value, never an
    updater function, so applying one handler's updates in order gives the
    same state whether React batches them or not.  JSON numbers are
    integers here; the API's numeric fields (page ids, sizes) are
    integers.  Strings are byte strings (UTF-8).  JavaScript's UTF-16
    [length] is compared only with [0], and it is [0] exactly when the
    byte length is.  [ToNumber] of a string reads integer literals only;
    it is applied to [query.search.length], a number in every answer the
    API documents.  An object value may list a key twice, where
    [JSON.parse] keeps the last one; the theorems about answers hold for
    every object, so for those of [JSON.parse] too.  [response.data] is
    the value a request is settled with.  The remote API appears as
    [Render.api_contract] and [ClientSpec.documented], the shapes of its
    documented answers, and as the server side of [Urls].  MediaWiki's
    Unicode normalisation (NFC) is not modelled.  It is the identity on
    ASCII, and the URL theorems are stated for printable ASCII terms.
    Submitting the form with the Enter key reloads the page: browser
    navigation is not modelled.

    ** Plan for the next steps

    - The spec's corrected design as a second model, with a request
      token per dispatch and [loading] reset on every exit path.  Then a
      simulation theorem relating it to the source on runs where no
      request fails and answers arrive in order, and theorems that it
      never shows a stale answer and never leaves the spinner stuck.
    - An encoded variant of [search_url] ([encodeURIComponent]), with a
      round trip for every printable term.
    - The React child rules and [ToNumber] / [ToString] lemmas grown into
      a reusable JavaScript-value library. *)

From stdpp Require Export base list strings sorting sets.
From Stdlib Require Export ZArith Ascii DecimalString.

Declare Scope wiki_scope.
Delimit Scope wiki_scope with wiki.

(** ** Results: a value, or a thrown error *)

Inductive res (E A : Type) : Type :=
| Ok (a : A)
| Throw (e : E).
Arguments Ok {E A} a.
Arguments Throw {E A} e.

#[export] Instance res_ret E : MRet (res E) := λ A a, Ok a.
#[export] Instance res_bind E : MBind (res E) := λ A B f r,
  match r with Ok a => f a | Throw e => Throw e end.

Definition res_ok {E A} (r : res E A) : bool :=
  match r with Ok _ => true | Throw _ => false end.

Lemma res_bind_Ok {E A B} (r : res E A) (f : A → res E B) (b : B) :
  (r ≫= f) = Ok b → ∃ a, r = Ok a ∧ f a = Ok b.
Proof. destruct r; cbn; [eauto|discriminate]. Qed.

(** Peel the binds of a hypothesis [c = Ok b] into one equation per step. *)
Ltac res_inv H :=
  repeat (cbv beta zeta in H;
          let a := fresh "a" in let Ha := fresh "Ha" in
          apply res_bind_Ok in H as (a & Ha & H)).

(** ** The handler monad: effects emitted in order, then a value or a throw

    A JavaScript statement sequence that calls setters and may throw half
    way is a [wr]: the effects performed before the throw are kept, as they
    are in the program. *)

Definition wr (W E A : Type) : Type := list W * res E A.

#[export] Instance wr_ret W E : MRet (wr W E) := λ A a, ([], Ok a).
#[export] Instance wr_bind W E : MBind (wr W E) := λ A B f c,
  match c with
  | (w, Ok a) => let '(w', r) := f a in (w ++ w', r)
  | (w, Throw e) => (w, Throw e)
  end.

Definition emit {W E} (x : W) : wr W E unit := ([x], Ok tt).
Definition lift {W E A} (r : res E A) : wr W E A := ([], r).

(** [try { c } catch (e) { h(e) }]: the handler runs after the effects [c]
    performed before throwing. *)
Definition mcatch {W E A} (c : wr W E A) (h : E → wr W E A) : wr W E A :=
  match c with
  | (w, Ok a) => (w, Ok a)
  | (w, Throw e) => let '(w', r) := h e in (w ++ w', r)
  end.

Notation "'throw!' e" := (lift (Throw e)) (at level 10) : wiki_scope.
Notation "c 'catch!' h" := (mcatch c h) (at level 40, left associativity) : wiki_scope.
Notation "'emitted' c" := (fst c) (at level 10) : wiki_scope.

Open Scope wiki_scope.

(** ** Automation *)

Create HintDb wiki discriminated.
Create Rewrite HintDb wiki_rw.

Ltac invc H := inversion H; subst; clear H.

(** Unfold the monad operations of a handler body. *)
Ltac wr_simp :=
  cbn [mbind mret wr_bind wr_ret res_bind res_ret emit lift mcatch fst snd app] in *.

(** A closed decidable proposition, by evaluation. *)
Ltac decide_closed :=
  match goal with |- ?P => exact (bool_decide_unpack P ltac:(vm_compute; exact I)) end.

(** ** Generic lemmas *)

Section monad_laws.
Context {W E : Type}.

Lemma wr_bind_ret {A B} (a : A) (f : A → wr W E B) :
  (mret a ≫= f) = f a.
Proof. cbn. by destruct (f a). Qed.

Lemma wr_bind_assoc {A B C} (c : wr W E A) (f : A → wr W E B) (g : B → wr W E C) :
  ((c ≫= f) ≫= g) = (c ≫= (λ a, f a ≫= g)).
Proof.
  destruct c as [w [a|e]]; cbn; [|done].
  destruct (f a) as [w' [b|e']]; cbn; [|done].
  destruct (g b) as [w'' r]. by rewrite app_assoc.
Qed.

Lemma wr_emit_bind {A} (x : W) (k : unit → wr W E A) :
  (emit x ≫= k) = (x :: (k tt).1, (k tt).2).
Proof. cbn. by destruct (k tt). Qed.

Lemma mcatch_ok {A} (c : wr W E A) (h : E → wr W E A) a :
  c.2 = Ok a → mcatch c h = c.
Proof. destruct c as [w r]; cbn; intros ->; done. Qed.
End monad_laws.

#[export] Hint Rewrite @wr_bind_ret @wr_emit_bind : wiki_rw.

Lemma prefix_ne {A} (l1 l2 : list A) : l1 `prefix_of` l2 → l1 ≠ [] → l2 ≠ [].
Proof. intros [k ->] Hne. by destruct l1. Qed.

(** Positions past a prefix: the event loop settles the [i]-th request of
    a list that other requests precede. *)
Lemma lookup_app_length {A} (l m : list A) (i : nat) : (l ++ m) !! (length l + i) = m !! i.
Proof. by induction l. Qed.

Lemma delete_app_length {A} (l m : list A) (i : nat) :
  delete (length l + i) (l ++ m) = l ++ delete i m.
Proof. induction l as [|x l IH]; [done|]. cbn. f_equal. exact IH. Qed.

#[export] Hint Rewrite @lookup_app_length @delete_app_length : wiki_rw.

(** String facts.  stdpp makes [String.append] opaque to [simpl]: its two
    equations are stated here and used for rewriting. *)

Lemma string_app_nil_l (b : string) : "" +:+ b = b.
Proof. reflexivity. Qed.

Lemma string_app_cons x (a b : string) : String x a +:+ b = String x (a +:+ b).
Proof. reflexivity. Qed.

#[export] Hint Rewrite string_app_nil_l string_app_cons : wiki_rw.

Ltac string_ind a :=
  induction a as [|? a IH]; rewrite ?string_app_nil_l, ?string_app_cons; simpl;
  rewrite ?string_app_nil_l, ?string_app_cons; congruence.

Lemma string_app_assoc (a b c : string) :
  (a +:+ b) +:+ c = a +:+ (b +:+ c).
Proof. string_ind a. Qed.

Lemma string_app_nil_r (a : string) : a +:+ "" = a.
Proof. string_ind a. Qed.

Lemma string_length_app (a b : string) :
  String.length (a +:+ b) = String.length a + String.length b.
Proof. string_ind a. Qed.

Lemma list_ascii_of_string_app (a b : string) :
  String.list_ascii_of_string (a +:+ b) =
  String.list_ascii_of_string a ++ String.list_ascii_of_string b.
Proof. string_ind a. Qed.

#[export] Hint Rewrite string_app_assoc string_app_nil_r string_length_app
  list_ascii_of_string_app : wiki_rw.

Lemma string_eqb_refl (s : string) : (s =? s)%string = true.
Proof. apply String.eqb_refl. Qed.

Lemma string_eqb_neq (s t : string) : s ≠ t → (s =? t)%string = false.
Proof. intros H. by apply String.eqb_neq. Qed.

Lemma ascii_eqb_refl (c : Ascii.ascii) : Ascii.eqb c c = true.
Proof. apply Ascii.eqb_refl. Qed.

Lemma ascii_eqb_neq (c d : Ascii.ascii) : c ≠ d → Ascii.eqb c d = false.
Proof. intros H. by apply Ascii.eqb_neq. Qed.

#[export] Hint Resolve string_eqb_refl string_eqb_neq ascii_eqb_refl ascii_eqb_neq : wiki.
