(* ===== verification/JsValue.v ===== *)
(** * JavaScript values and the language operations App.js applies to them

    The values the component handles are parsed JSON (what axios puts in
    [response.data]) together with [undefined], the value of a missing
    property.  This file gives them an inductive type [jsval] and models
    the ECMAScript operations the source uses:
    - property access [v.k] / [v[k]] ([get_prop]);
    - truthiness ([truthy]) for [?:] and [&&];
    - [ToNumber] for [> 0] ([to_number], [gt_zero]);
    - [ToString] for template literals ([to_string]);
    - [Object.keys] in the order the language fixes ([object_keys]);
    - the string an array becomes when it is used as a property key
      ([join_keys]).
    It also holds their lemmas, in particular what [pages[Object.keys(pages)]]
    evaluates to for an object of any number of keys. *)

From S2P Require Import Prelude.

#[local] Set Warnings "-register-all".

Module Js.

(** ** Values and errors *)

Inductive jsval : Type :=
| JUndefined
| JNull
| JBool (b : bool)
| JNum (n : Z)
| JStr (s : string)
| JArr (xs : list jsval)
| JObj (fields : list (string * jsval)).

(** The errors the program can meet: a [TypeError] of the language, a plain
    [Error] (which React throws on a child it cannot render), and the
    [AxiosError] with which axios rejects a request that failed. *)
Inductive js_error : Type :=
| TypeError (msg : string)
| PlainError (msg : string)
| NetworkError (msg : string).

Abbreviation jsres := (res js_error).

(** ** Numbers and strings *)

(** [String(n)] for an integer [n]. *)
Definition Z_to_dec (n : Z) : string :=
  match n with
  | Z0 => "0"
  | Zpos p => NilEmpty.string_of_uint (Pos.to_uint p)
  | Zneg p => "-" +:+ NilEmpty.string_of_uint (Pos.to_uint p)
  end.

Definition digit_val (c : Ascii.ascii) : option N :=
  let n := Ascii.N_of_ascii c in
  if (48 <=? n)%N && (n <=? 57)%N then Some (n - 48)%N else None.

Fixpoint digits_val (acc : N) (cs : list Ascii.ascii) : option N :=
  match cs with
  | [] => Some acc
  | c :: cs' => d ← digit_val c; digits_val (10 * acc + d)%N cs'
  end.

(** An array index in the sense of the language: the canonical decimal
    form (no sign, no leading zero) of a number below [2^32 - 1]. *)
Definition array_index (k : string) : option N :=
  match String.list_ascii_of_string k with
  | [] => None
  | c :: rest =>
      if Ascii.eqb c "0" && negb (bool_decide (rest = [])) then None
      else n ← digits_val 0 (c :: rest);
           if (n <? 4294967295)%N then Some n else None
  end.

Definition index_string (i : nat) : string := Z_to_dec (Z.of_nat i).

(** [StringToNumber], for the integer literals this model's numbers can
    hold: surrounding white space is dropped, the empty string is [0], a
    sign and decimal digits give their value.  Only ASCII white space is
    trimmed.  Every other string is
    [None] here, for [NaN]; fractional, exponent, hexadecimal and
    [Infinity] literals also land there.  The program converts a string to
    a number only when a JSON object carries a string [length]. *)
Definition is_ws (c : Ascii.ascii) : bool :=
  existsb (Ascii.eqb c) [" "; "009"; "010"; "011"; "012"; "013"]%char.

Fixpoint drop_ws (cs : list Ascii.ascii) : list Ascii.ascii :=
  match cs with
  | c :: cs' => if is_ws c then drop_ws cs' else cs
  | [] => []
  end.

Definition trim_ws (cs : list Ascii.ascii) : list Ascii.ascii :=
  reverse (drop_ws (reverse (drop_ws cs))).

Definition string_to_number (s : string) : option Z :=
  match trim_ws (String.list_ascii_of_string s) with
  | [] => Some 0%Z
  | c :: rest =>
      if Ascii.eqb c "-" then
        (match rest with [] => None | _ => n ← digits_val 0 rest; Some (- Z.of_N n)%Z end)
      else if Ascii.eqb c "+" then
        (match rest with [] => None | _ => n ← digits_val 0 rest; Some (Z.of_N n) end)
      else n ← digits_val 0 (c :: rest); Some (Z.of_N n)
  end.

(** ** ToString, ToNumber, ToBoolean *)

(** [ToString], as a template literal applies it.  An array is joined with
    commas, its [undefined] and [null] elements giving the empty string. *)
Fixpoint to_string (v : jsval) : string :=
  match v with
  | JUndefined => "undefined"
  | JNull => "null"
  | JBool b => if b then "true" else "false"
  | JNum n => Z_to_dec n
  | JStr s => s
  | JArr xs =>
      String.concat ","
        ((fix go (xs : list jsval) : list string :=
            match xs with
            | [] => []
            | x :: xs' =>
                match x with
                | JUndefined | JNull => ""
                | _ => to_string x
                end :: go xs'
            end) xs)
  | JObj _ => "[object Object]"
  end.

(** [ToNumber]; [None] stands for [NaN]. *)
Definition to_number (v : jsval) : option Z :=
  match v with
  | JUndefined => None
  | JNull => Some 0%Z
  | JBool b => Some (if b then 1%Z else 0%Z)
  | JNum n => Some n
  | JStr s => string_to_number s
  | JArr _ => string_to_number (to_string v)
  | JObj _ => None
  end.

(** [v > 0]: a comparison with [NaN] is false. *)
Definition gt_zero (v : jsval) : bool :=
  match to_number v with Some n => (0 <? n)%Z | None => false end.

(** [ToBoolean]. *)
Definition truthy (v : jsval) : bool :=
  match v with
  | JUndefined | JNull => false
  | JBool b => b
  | JNum n => negb (n =? 0)%Z
  | JStr s => negb (s =? "")%string
  | JArr _ | JObj _ => true
  end.

(** [a && b] and [a ? b : c] as expressions. *)
Definition js_and (a b : jsval) : jsval := if truthy a then b else a.

(** ** Property access *)

Fixpoint assoc (k : string) (fs : list (string * jsval)) : option jsval :=
  match fs with
  | [] => None
  | (k', v) :: fs' => if (k =? k')%string then Some v else assoc k fs'
  end.

(** [v[k]].  Reading a property of [undefined] or [null] throws.  A string
    or an array has [length] and its indices (a string's characters are its
    bytes here).  An object has its own fields.  Every other read gives
    [undefined]: the program never reads a name that [Object.prototype]
    defines. *)
Definition get_prop (v : jsval) (k : string) : jsres jsval :=
  match v with
  | JUndefined =>
      Throw (TypeError ("Cannot read properties of undefined (reading '" +:+ k +:+ "')"))
  | JNull =>
      Throw (TypeError ("Cannot read properties of null (reading '" +:+ k +:+ "')"))
  | JBool _ | JNum _ => Ok JUndefined
  | JStr s =>
      if (k =? "length")%string then Ok (JNum (Z.of_nat (String.length s)))
      else match array_index k with
           | Some i =>
               Ok (match String.get (N.to_nat i) s with
                   | Some c => JStr (String c "")
                   | None => JUndefined
                   end)
           | None => Ok JUndefined
           end
  | JArr xs =>
      if (k =? "length")%string then Ok (JNum (Z.of_nat (length xs)))
      else match array_index k with
           | Some i => Ok (default JUndefined (xs !! N.to_nat i))
           | None => Ok JUndefined
           end
  | JObj fs => Ok (default JUndefined (assoc k fs))
  end.

(** ** Object.keys *)

(** The own keys of an object in the order the language fixes: the array
    indices in ascending numeric order, then the other keys in insertion
    order. *)
Definition index_key (k : string) : N := default 0%N (array_index k).

Definition is_index_key (k : string) : Prop := is_Some (array_index k).
#[export] Instance is_index_key_dec k : Decision (is_index_key k).
Proof. unfold is_index_key. apply _. Defined.

Definition index_le (a b : string) : Prop := (index_key a ≤ index_key b)%N.
#[export] Instance index_le_dec : RelDecision index_le.
Proof. intros a b. unfold index_le. apply _. Defined.

Definition own_keys (ks : list string) : list string :=
  merge_sort index_le (filter is_index_key ks)
  ++ filter (λ k, ¬ is_index_key k) ks.

(** [Object.keys(v)]: it throws on [undefined] and [null]. *)
Definition object_keys (v : jsval) : jsres (list string) :=
  match v with
  | JUndefined | JNull => Throw (TypeError "Cannot convert undefined or null to object")
  | JBool _ | JNum _ => Ok []
  | JStr s => Ok (map index_string (seq 0 (String.length s)))
  | JArr xs => Ok (map index_string (seq 0 (length xs)))
  | JObj fs => Ok (own_keys (map fst fs))
  end.

(** The property key an array of strings becomes: [String(ks)], the keys
    joined with commas. *)
Definition join_keys (ks : list string) : string := String.concat "," ks.

(** ** Lemmas *)

Lemma own_keys_perm (ks : list string) : own_keys ks ≡ₚ ks.
Proof.
  unfold own_keys. rewrite merge_sort_Permutation.
  apply filter_app_complement.
Qed.

Lemma own_keys_single (k : string) : own_keys [k] = [k].
Proof.
  unfold own_keys. rewrite !filter_cons, !filter_nil.
  destruct (decide (is_index_key k)) as [H|H];
    [rewrite decide_False by tauto|rewrite decide_True by done]; reflexivity.
Qed.

Lemma join_keys_single (k : string) : join_keys [k] = k.
Proof. reflexivity. Qed.

Lemma join_keys_cons2 (k k' : string) (ks : list string) :
  join_keys (k :: k' :: ks) = k +:+ "," +:+ join_keys (k' :: ks).
Proof. reflexivity. Qed.

(** Every key is at most as long as the keys joined, and strictly shorter
    once there are two of them: the comma is in the way. *)
Lemma join_keys_length_le (ks : list string) (k : string) :
  k ∈ ks → String.length k ≤ String.length (join_keys ks).
Proof.
  induction ks as [|k0 [|k1 ks] IH]; intros Hin.
  - by apply not_elem_of_nil in Hin.
  - apply list_elem_of_singleton in Hin as ->. done.
  - rewrite join_keys_cons2, !string_length_app. cbn [String.length].
    apply elem_of_cons in Hin as [->|Hin]; [lia|].
    specialize (IH Hin). lia.
Qed.

Lemma join_keys_length_lt (ks : list string) (k : string) :
  2 ≤ length ks → k ∈ ks → String.length k < String.length (join_keys ks).
Proof.
  destruct ks as [|k0 [|k1 ks]]; cbn [length]; intros Hlen Hin; [lia|lia|].
  rewrite join_keys_cons2, !string_length_app. cbn [String.length].
  apply elem_of_cons in Hin as [->|Hin]; [lia|].
  pose proof (join_keys_length_le _ _ Hin). lia.
Qed.

Lemma assoc_None (k : string) (fs : list (string * jsval)) :
  k ∉ fs.*1 → assoc k fs = None.
Proof.
  induction fs as [|[k' v] fs IH]; cbn; intros Hk; [done|].
  rewrite not_elem_of_cons in Hk. destruct Hk as [Hne Hk].
  rewrite string_eqb_neq by done. by apply IH.
Qed.

(** [o[Object.keys(o)]] on an object: the value of its only field, and
    [undefined] when the object has no field or more than one. *)
Lemma get_prop_at_own_keys (fs : list (string * jsval)) :
  get_prop (JObj fs) (join_keys (own_keys fs.*1)) =
  Ok (match fs with [(_, v)] => v | _ => JUndefined end).
Proof.
  destruct fs as [|[k v] [|f fs]].
  - reflexivity.
  - change ([(k, v)].*1) with [k].
    rewrite own_keys_single, join_keys_single. cbn.
    by rewrite string_eqb_refl.
  - cbn [get_prop]. rewrite assoc_None; [done|].
    set (j := join_keys _). intros Hin.
    assert (Hlt : String.length j < String.length j).
    { apply join_keys_length_lt.
      - rewrite own_keys_perm. cbn. lia.
      - by rewrite own_keys_perm. }
    lia.
Qed.

End Js.
