(* ===== verification/LangProfile.v ===== *)
(** * The two language profiles (App.js lines 14-38)

    [langEn] and [langFr] are the object literals of the source, field by
    field, the accented and emoji labels as their UTF-8 bytes.  [langChoice]
    is the selection by the [lang] flag: [false] is English.  The lemmas say
    that the flag determines the locale code and every label, and that
    flipping it always selects the other profile. *)

From S2P Require Import Prelude.

Module Lang.

Record profile : Type := {
  button : string;
  language : string;
  search : string;
  placeholder : string;
  random : string;
  clear : string;
  results : string;
  noResults : string;
  more : string;
}.

Definition langEn : profile := {|
  button := "FR 🇫🇷";
  language := "en";
  search := "Search";
  placeholder := "Enter your search term";
  random := "Random Article";
  clear := "Clear results";
  results := "Search results";
  noResults := "No results found";
  more := "More about";
|}.

Definition langFr : profile := {|
  button := "EN 🇺🇸";
  language := "fr";
  search := "Recherche";
  placeholder := "Entrez votre recherche";
  random := "Article aléatoire";
  clear := "Effacer";
  results := "Votre recherche";
  noResults := "Aucun résultat";
  more := "Plus d'informations sur";
|}.

(** [const langChoice = lang ? langFr : langEn;] *)
Definition langChoice (lang : bool) : profile := if lang then langFr else langEn.

(** The profiles a run can select. *)
Definition is_profile (p : profile) : Prop := p = langEn ∨ p = langFr.

(** ** Lemmas *)

Lemma langChoice_is_profile (b : bool) : is_profile (langChoice b).
Proof. destruct b; [right|left]; reflexivity. Qed.

#[export] Hint Resolve langChoice_is_profile : wiki.

(** The locale code determines the flag, hence the whole profile. *)
Lemma langChoice_language_inj (b b' : bool) :
  language (langChoice b) = language (langChoice b') → b = b'.
Proof. destruct b, b'; cbn; congruence. Qed.

Lemma profile_of_language (p : profile) :
  is_profile p → p = langChoice (bool_decide (language p = "fr")).
Proof. intros [->| ->]; reflexivity. Qed.

End Lang.
