(* ===== verification/Urls.v ===== *)
(** * The request URLs (App.js lines 40, 61, 77, 174)

    [baseUrl], [random_url], [search_url] and [article_url] are the
    source's template literals.  A template literal applies [ToString] and
    nothing else: the search term goes into the query string unencoded.

    The rest of the file models what reaches the API server for a URL.
    This part is the environment, not code of this repository.
    - The browser (axios hands the URL to the XHR, which runs the URL
      parser).  [url_preprocess] is the parser's first step: strip
      leading and trailing C0 controls and spaces, then remove every tab
      and newline.  [request_query] keeps what lies after the first [?]
      and before the first [#], and percent-encodes the bytes of the
      special-query set ([query_encode]).
    - The server.  [params_of] splits the query on [&], then each piece at
      its first [=].  [form_decode] decodes [+] and [%XX].  [mw_clean] is
      MediaWiki's cleanup of a value: a C0 control other than a tab or a
      newline becomes U+FFFD.  A repeated name keeps its last value, as
      PHP's request parsing does ([query_param]).
    MediaWiki also puts every value in Unicode normal form C.  That step is
    not modelled: it is the identity on ASCII, and the theorems of this
    file are stated for printable ASCII terms ([term_plain], [term_safe]).
    Bytes of a string are [Ascii.ascii] characters, as UTF-8 bytes. *)

From S2P Require Import Prelude JsValue LangProfile.
Import Js Lang.

Module Urls.

(** ** The URLs of the source *)

(** [const baseUrl = `https://${langChoice.language}.wikipedia.org/w/api.php?action=query&format=json&exintro&explaintext`;] *)
Definition baseUrl (p : profile) : string :=
  "https://" +:+ language p +:+
  ".wikipedia.org/w/api.php?action=query&format=json&exintro&explaintext".

(** The URL [handleRandom] requests (line 61). *)
Definition random_url (p : profile) : string :=
  baseUrl p +:+ "&generator=random&grnnamespace=0&prop=extracts&exchars=500&origin=*".

(** [const url = `${baseUrl}&list=search&utf8=1&srsearch=${searchTerm}&origin=*`;] *)
Definition search_url (p : profile) (searchTerm : string) : string :=
  baseUrl p +:+ "&list=search&utf8=1&srsearch=" +:+ searchTerm +:+ "&origin=*".

(** [`https://${langChoice.language}.wikipedia.org/w/index.php?curid=${result.pageid}`] *)
Definition article_url (p : profile) (pageid : jsval) : string :=
  "https://" +:+ language p +:+ ".wikipedia.org/w/index.php?curid=" +:+ to_string pageid.

(** ** Splitting a list of characters *)

Abbreviation chars := (list Ascii.ascii).

(** The characters before the first [c], and what follows it if it occurs. *)
Fixpoint break_at (c : Ascii.ascii) (cs : chars) : chars * option chars :=
  match cs with
  | [] => ([], None)
  | x :: xs =>
      if Ascii.eqb x c then ([], Some xs)
      else let '(a, r) := break_at c xs in (x :: a, r)
  end.

(** The pieces between the occurrences of [c]. *)
Fixpoint split_on (c : Ascii.ascii) (cs : chars) : list chars :=
  match cs with
  | [] => [[]]
  | x :: xs =>
      if Ascii.eqb x c then [] :: split_on c xs
      else match split_on c xs with
           | w :: ws => (x :: w) :: ws
           | [] => [[x]]
           end
  end.

(** ** The request the browser sends *)

Definition code (c : Ascii.ascii) : N := Ascii.N_of_ascii c.

(** A C0 control or a space. *)
Definition c0_or_space (c : Ascii.ascii) : bool := (code c <=? 32)%N.

(** A tab, a line feed or a carriage return. *)
Definition tab_or_newline (c : Ascii.ascii) : bool :=
  (code c =? 9)%N || (code c =? 10)%N || (code c =? 13)%N.

(** A printable ASCII character, the space included. *)
Definition printable (c : Ascii.ascii) : bool := (32 <=? code c)%N && (code c <=? 126)%N.

Fixpoint drop_c0 (cs : chars) : chars :=
  match cs with
  | x :: xs => if c0_or_space x then drop_c0 xs else cs
  | [] => []
  end.

Definition strip_tab_newline (cs : chars) : chars :=
  List.filter (λ c, negb (tab_or_newline c)) cs.

(** The URL parser's first steps: strip leading and trailing C0 controls
    and spaces, then remove every tab and newline. *)
Definition url_preprocess (cs : chars) : chars :=
  strip_tab_newline (rev (drop_c0 (rev (drop_c0 cs)))).

Definition hex_digit (n : N) : Ascii.ascii :=
  Ascii.ascii_of_N (if (n <? 10)%N then 48 + n else 55 + n).

(** [%XX] with upper-case hexadecimal digits. *)
Definition percent_encode (c : Ascii.ascii) : chars :=
  ["%"%char; hex_digit (code c / 16); hex_digit (code c mod 16)].

(** The special-query percent-encode set: C0 controls, bytes above [~],
    the space, the double and the single quote, [<] and [>]. *)
Definition query_encoded (c : Ascii.ascii) : bool :=
  (code c <? 32)%N || (126 <? code c)%N || existsb (N.eqb (code c)) [32; 34; 39; 60; 62]%N.

Definition query_encode (cs : chars) : chars :=
  flat_map (λ c, if query_encoded c then percent_encode c else [c]) cs.

(** The query the browser sends for a URL. *)
Definition request_query (url : string) : chars :=
  match break_at "?" (url_preprocess (String.list_ascii_of_string url)) with
  | (_, Some rest) => query_encode (break_at "#" rest).1
  | (_, None) => []
  end.

(** ** The query as the server reads it *)

Definition hex_val (c : Ascii.ascii) : option N :=
  let n := Ascii.N_of_ascii c in
  if (48 <=? n)%N && (n <=? 57)%N then Some (n - 48)%N
  else if (65 <=? n)%N && (n <=? 70)%N then Some (n - 55)%N
  else if (97 <=? n)%N && (n <=? 102)%N then Some (n - 87)%N
  else None.

(** Form decoding: [+] is a space, [%XX] a byte, a stray [%] stays. *)
Fixpoint form_decode (cs : chars) : chars :=
  match cs with
  | [] => []
  | x :: rest =>
      if Ascii.eqb x "+" then " "%char :: form_decode rest
      else if Ascii.eqb x "%" then
        match rest with
        | h :: l :: rest' =>
            match hex_val h, hex_val l with
            | Some a, Some b => Ascii.ascii_of_N (16 * a + b) :: form_decode rest'
            | _, _ => x :: form_decode rest
            end
        | _ => x :: form_decode rest
        end
      else x :: form_decode rest
  end.

(** U+FFFD, the replacement character, as UTF-8 bytes. *)
Definition replacement_char : chars :=
  [Ascii.ascii_of_N 239; Ascii.ascii_of_N 191; Ascii.ascii_of_N 189].

(** MediaWiki's cleanup of a request value. *)
Definition mw_clean (cs : chars) : chars :=
  flat_map (λ c, if (code c <? 32)%N && negb (tab_or_newline c) then replacement_char else [c]) cs.

Definition parse_pair (piece : chars) : string * string :=
  let '(k, v) := break_at "=" piece in
  (String.string_of_list_ascii (form_decode k),
   String.string_of_list_ascii (mw_clean (form_decode (default [] v)))).

Definition params_of (q : chars) : list (string * string) :=
  map parse_pair (split_on "&" q).

(** The name/value pairs the server reads, in order. *)
Definition url_params (url : string) : list (string * string) :=
  params_of (request_query url).

(** The value the server takes for a name: the last one given. *)
Definition query_param (name : string) (url : string) : option string :=
  last (map snd (filter (λ kv, (kv.1 =? name)%string = true) (url_params url))).

(** The host a URL names: between [scheme://] and the next [/]. *)
Definition url_host (url : string) : option string :=
  match break_at ":" (String.list_ascii_of_string url) with
  | (_, Some ("/" :: "/" :: rest)%char) => Some (String.string_of_list_ascii (break_at "/" rest).1)
  | _ => None
  end.

(** ** Terms *)

(** The characters a query string reserves. *)
Definition reserved : chars := ["&"; "#"; "+"; "%"]%char.

(** A printable ASCII term free of [&], [#] and [%]. *)
Definition term_plain (t : string) : Prop :=
  Forall (λ c, printable c = true ∧ c ∉ ["&"; "#"; "%"]%char) (String.list_ascii_of_string t).

(** A printable ASCII term free of every reserved character. *)
Definition term_safe (t : string) : Prop :=
  Forall (λ c, printable c = true ∧ c ∉ reserved) (String.list_ascii_of_string t).

#[export] Instance term_plain_dec t : Decision (term_plain t).
Proof. unfold term_plain. apply _. Defined.

#[export] Instance term_safe_dec t : Decision (term_safe t).
Proof. unfold term_safe. apply _. Defined.

Definition plus_space (c : Ascii.ascii) : Ascii.ascii := if Ascii.eqb c "+" then " "%char else c.

(** The term with every [+] read as a space. *)
Definition plus_to_space (t : string) : string :=
  String.string_of_list_ascii (map plus_space (String.list_ascii_of_string t)).

(** ** Lemmas on the query-string functions *)

Lemma break_at_notin (c : Ascii.ascii) (a : chars) :
  c ∉ a → break_at c a = (a, None).
Proof.
  induction a as [|x a IH]; cbn; intros Hc; [done|].
  rewrite not_elem_of_cons in Hc. destruct Hc as [Hx Hc].
  rewrite ascii_eqb_neq by congruence. by rewrite IH.
Qed.

Lemma break_at_notin_app (c : Ascii.ascii) (a b : chars) :
  c ∉ a → break_at c (a ++ b) = let '(y, r) := break_at c b in (a ++ y, r).
Proof.
  induction a as [|x a IH]; cbn; intros Hc; [by destruct (break_at c b)|].
  rewrite not_elem_of_cons in Hc. destruct Hc as [Hx Hc].
  rewrite ascii_eqb_neq by congruence. rewrite IH by done.
  by destruct (break_at c b).
Qed.

Lemma break_at_hit (c : Ascii.ascii) (a b : chars) :
  c ∉ a → break_at c (a ++ c :: b) = (a, Some b).
Proof.
  intros Hc. rewrite break_at_notin_app by done. cbn.
  by rewrite ascii_eqb_refl, app_nil_r.
Qed.

Lemma split_on_ne (c : Ascii.ascii) (a : chars) : split_on c a ≠ [].
Proof.
  induction a as [|x a IH]; cbn; [done|].
  destruct (Ascii.eqb x c); [done|]. by destruct (split_on c a).
Qed.

Lemma split_on_app_sep (c : Ascii.ascii) (a b : chars) :
  split_on c (a ++ c :: b) = split_on c a ++ split_on c b.
Proof.
  induction a as [|x a IH]; cbn; [by rewrite ascii_eqb_refl|].
  destruct (Ascii.eqb x c); [by rewrite IH|].
  rewrite IH. pose proof (split_on_ne c a). by destruct (split_on c a).
Qed.

Lemma split_on_notin (c : Ascii.ascii) (a : chars) :
  c ∉ a → split_on c a = [a].
Proof.
  induction a as [|x a IH]; cbn; intros Hc; [done|].
  rewrite not_elem_of_cons in Hc. destruct Hc as [Hx Hc].
  rewrite ascii_eqb_neq by congruence. by rewrite IH.
Qed.

Lemma split_on_notin_app (c : Ascii.ascii) (a b : chars) :
  c ∉ a → split_on c (a ++ c :: b) = a :: split_on c b.
Proof.
  induction a as [|x a IH]; cbn; intros Hc; [by rewrite ascii_eqb_refl|].
  rewrite not_elem_of_cons in Hc. destruct Hc as [Hx Hc].
  rewrite ascii_eqb_neq by congruence. by rewrite IH.
Qed.

(** ** Lemmas on the browser's side *)

Definition head_ok (l : chars) : Prop :=
  match l with c :: _ => c0_or_space c = false | [] => False end.

Lemma drop_c0_app (l r : chars) : head_ok l → drop_c0 (l ++ r) = l ++ r.
Proof. destruct l as [|c l]; cbn; [done|]. by intros ->. Qed.

(** Trimming keeps a URL that starts and ends with a visible character. *)
Lemma url_trim_frame (A X B : chars) :
  head_ok A → head_ok (rev B) → rev (drop_c0 (rev (drop_c0 (A ++ X ++ B)))) = A ++ X ++ B.
Proof.
  intros HA HB. rewrite drop_c0_app by done.
  rewrite (rev_app_distr A), rev_app_distr, <- app_assoc, drop_c0_app by done.
  by rewrite app_assoc, <- rev_app_distr, <- rev_app_distr, rev_involutive.
Qed.

Lemma printable_not_tab_newline (c : Ascii.ascii) : printable c = true → tab_or_newline c = false.
Proof.
  unfold printable, tab_or_newline. intros [H1 _]%andb_prop. apply N.leb_le in H1.
  repeat apply orb_false_intro; apply N.eqb_neq; lia.
Qed.

Lemma strip_tab_newline_app (a b : chars) :
  strip_tab_newline (a ++ b) = strip_tab_newline a ++ strip_tab_newline b.
Proof. apply List.filter_app. Qed.

Lemma strip_tab_newline_id (a : chars) :
  Forall (λ c, printable c = true) a → strip_tab_newline a = a.
Proof.
  induction 1 as [|c a Hc _ IH]; [done|]. unfold strip_tab_newline in *; cbn.
  by rewrite printable_not_tab_newline, IH.
Qed.

Lemma query_encode_app (a b : chars) : query_encode (a ++ b) = query_encode a ++ query_encode b.
Proof. apply flat_map_app. Qed.

Lemma query_encode_id (a : chars) :
  Forall (λ c, query_encoded c = false) a → query_encode a = a.
Proof. induction 1 as [|c a Hc _ IH]; [done|]. unfold query_encode in *; cbn. by rewrite Hc, IH. Qed.

Lemma percent_encode_no_amp (c : Ascii.ascii) : "&"%char ∉ percent_encode c.
Proof. destruct c as [[] [] [] [] [] [] [] []]; decide_closed. Qed.

Lemma query_encode_no_amp (a : chars) : "&"%char ∉ a → "&"%char ∉ query_encode a.
Proof.
  induction a as [|c a IH]; intros Ha; [set_solver|].
  apply not_elem_of_cons in Ha as [Hc Ha]. unfold query_encode in *; cbn.
  rewrite not_elem_of_app. split; [|by apply IH].
  destruct (query_encoded c); [apply percent_encode_no_amp|set_solver].
Qed.

(** ** Lemmas on the server's side *)

Lemma form_decode_percent (c : Ascii.ascii) (r : chars) :
  form_decode (percent_encode c ++ r) = c :: form_decode r.
Proof. destruct c as [[] [] [] [] [] [] [] []]; reflexivity. Qed.

(** The server's decoding undoes the browser's encoding, and reads [+] as
    a space. *)
Lemma form_decode_query_encode (a : chars) :
  "%"%char ∉ a → form_decode (query_encode a) = map plus_space a.
Proof.
  induction a as [|c a IH]; intros Ha; [done|].
  apply not_elem_of_cons in Ha as [Hc Ha]. unfold query_encode in *; cbn [flat_map map].
  destruct (query_encoded c) eqn:E.
  - rewrite form_decode_percent, IH by done. f_equal. unfold plus_space.
    destruct (Ascii.eqb_spec c "+") as [->|]; [discriminate E|done].
  - cbn [app form_decode]. rewrite (ascii_eqb_neq c "%") by done. rewrite IH by done.
    unfold plus_space. by destruct (Ascii.eqb c "+").
Qed.

Lemma mw_clean_id (a : chars) : Forall (λ c, printable c = true) a → mw_clean a = a.
Proof.
  induction 1 as [|c a Hc _ IH]; [done|]. unfold mw_clean in *; cbn.
  apply andb_prop in Hc as [H1 _]. apply N.leb_le in H1.
  replace (code c <? 32)%N with false by (symmetry; apply N.ltb_ge; lia). by rewrite IH.
Qed.

Lemma plus_space_printable (c : Ascii.ascii) : printable c = true → printable (plus_space c) = true.
Proof. unfold plus_space. by destruct (Ascii.eqb c "+"). Qed.

Lemma params_of_sep (q1 q2 : chars) : params_of (q1 ++ "&"%char :: q2) = params_of q1 ++ params_of q2.
Proof. unfold params_of. by rewrite split_on_app_sep, map_app. Qed.

(** The [srsearch] piece of the query: the server reads the term with
    each [+] as a space. *)
Lemma params_of_srsearch (a : chars) :
  Forall (λ c, printable c = true ∧ c ∉ ["&"; "#"; "%"]%char) a →
  params_of (String.list_ascii_of_string "srsearch=" ++ query_encode a) =
  [("srsearch", String.string_of_list_ascii (map plus_space a))].
Proof.
  intros Ha. apply Forall_and in Ha as [Hp Hr].
  assert ("&"%char ∉ a) by (intros Hin; rewrite Forall_forall in Hr; apply (Hr _ Hin); set_solver).
  assert ("%"%char ∉ a) by (intros Hin; rewrite Forall_forall in Hr; apply (Hr _ Hin); set_solver).
  unfold params_of. rewrite split_on_notin.
  2: { rewrite not_elem_of_app. split; [decide_closed|by apply query_encode_no_amp]. }
  cbn [map]. unfold parse_pair.
  change (String.list_ascii_of_string "srsearch=" ++ query_encode a)
    with (String.list_ascii_of_string "srsearch" ++ "="%char :: query_encode a).
  rewrite break_at_hit by decide_closed. cbn [default]. unfold id.
  rewrite form_decode_query_encode, mw_clean_id by (done || by apply Forall_map, (Forall_impl _ _ _ Hp), plus_space_printable).
  reflexivity.
Qed.

Lemma search_url_chars (p : profile) (t : string) :
  String.list_ascii_of_string (search_url p t) =
  String.list_ascii_of_string (baseUrl p) ++
  String.list_ascii_of_string "&list=search&utf8=1&srsearch=" ++
  String.list_ascii_of_string t ++ String.list_ascii_of_string "&origin=*".
Proof. unfold search_url. by rewrite !list_ascii_of_string_app. Qed.

Lemma baseUrl_chars (p : profile) :
  is_profile p →
  String.list_ascii_of_string (baseUrl p) =
  String.list_ascii_of_string ("https://" +:+ language p +:+ ".wikipedia.org/w/api.php") ++
  "?"%char :: String.list_ascii_of_string "action=query&format=json&exintro&explaintext".
Proof. intros [-> | ->]; reflexivity. Qed.

(** The start of a search query, up to [srsearch=]. *)
Definition search_query_head : chars :=
  String.list_ascii_of_string "action=query&format=json&exintro&explaintext&list=search&utf8=1&srsearch=".

Lemma search_query_head_split :
  search_query_head =
  String.list_ascii_of_string "action=query&format=json&exintro&explaintext&list=search&utf8=1" ++
  "&"%char :: String.list_ascii_of_string "srsearch=".
Proof. reflexivity. Qed.

Definition search_params_head : list (string * string) :=
  [("action", "query"); ("format", "json"); ("exintro", ""); ("explaintext", "");
   ("list", "search"); ("utf8", "1")].

(** What the browser sends for a search URL: the term, without its tabs
    and newlines, between [srsearch=] and [&origin=*], up to the first
    [#], percent-encoded. *)
Lemma request_query_search (p : profile) (t : string) :
  is_profile p →
  request_query (search_url p t) =
  query_encode (break_at "#" (search_query_head ++ strip_tab_newline (String.list_ascii_of_string t) ++
    "&"%char :: String.list_ascii_of_string "origin=*")).1.
Proof.
  intros Hp. unfold request_query, url_preprocess. rewrite search_url_chars, app_assoc.
  rewrite url_trim_frame by (destruct Hp as [-> | ->]; reflexivity).
  rewrite <- app_assoc, !strip_tab_newline_app, baseUrl_chars by done.
  rewrite (strip_tab_newline_id (String.list_ascii_of_string "&origin=*")) by decide_closed.
  rewrite (strip_tab_newline_id (String.list_ascii_of_string "&list=search&utf8=1&srsearch=")) by decide_closed.
  rewrite strip_tab_newline_id by (destruct Hp as [-> | ->]; decide_closed).
  rewrite <- app_assoc, <- app_comm_cons.
  rewrite break_at_hit by (destruct Hp as [-> | ->]; decide_closed). reflexivity.
Qed.

Lemma query_encode_amp (l : chars) : query_encode ("&"%char :: l) = "&"%char :: query_encode l.
Proof. reflexivity. Qed.

Ltac plain_srsearch :=
  rewrite search_query_head_split, <- app_assoc, <- app_comm_cons, params_of_sep.

(** The server's reading of a search query that ends with the term. *)
Lemma params_of_search_end (a : chars) :
  Forall (λ c, printable c = true ∧ c ∉ ["&"; "#"; "%"]%char) a →
  params_of (search_query_head ++ query_encode a) =
  search_params_head ++ [("srsearch", String.string_of_list_ascii (map plus_space a))].
Proof. intros Ha. plain_srsearch. by rewrite params_of_srsearch. Qed.

(** ... and of one where [&] and more parameters follow the term. *)
Lemma params_of_search_more (a r : chars) :
  Forall (λ c, printable c = true ∧ c ∉ ["&"; "#"; "%"]%char) a →
  params_of (search_query_head ++ query_encode a ++ "&"%char :: r) =
  search_params_head ++ ("srsearch", String.string_of_list_ascii (map plus_space a)) :: params_of r.
Proof.
  intros Ha. plain_srsearch.
  rewrite (app_assoc (String.list_ascii_of_string "srsearch=")), params_of_sep.
  by rewrite params_of_srsearch.
Qed.

Lemma term_plain_printable (t : string) :
  term_plain t → Forall (λ c, printable c = true) (String.list_ascii_of_string t).
Proof. intros Ht. eapply Forall_impl; [exact Ht|]. by intros ? []. Qed.

Lemma term_plain_notin (t : string) (c : Ascii.ascii) :
  term_plain t → c ∈ ["&"; "#"; "%"]%char → c ∉ String.list_ascii_of_string t.
Proof. intros Ht Hc Hin. unfold term_plain in Ht. rewrite Forall_forall in Ht. by apply (Ht c). Qed.

Lemma term_safe_plain (t : string) : term_safe t → term_plain t.
Proof.
  intros Ht. eapply Forall_impl; [exact Ht|]. intros c [Hp Hr]. split; [done|]. intros Hin. apply Hr.
  unfold reserved. set_solver.
Qed.

Lemma map_plus_space_id (l : chars) : "+"%char ∉ l → map plus_space l = l.
Proof.
  induction l as [|c l IH]; intros Hl; [done|].
  apply not_elem_of_cons in Hl as [Hc Hl]. cbn. rewrite IH by done.
  unfold plus_space. by rewrite ascii_eqb_neq.
Qed.

Lemma plus_to_space_id (t : string) :
  "+"%char ∉ String.list_ascii_of_string t → plus_to_space t = t.
Proof.
  intros Ht. unfold plus_to_space. rewrite map_plus_space_id by done.
  apply String.string_of_list_ascii_of_string.
Qed.

(** The parameters the server reads from a search URL whose term is
    plain: the template's, with the term as [srsearch], each [+] read as a
    space. *)
Lemma url_params_search (p : profile) (t : string) :
  is_profile p → term_plain t →
  url_params (search_url p t) = search_params_head ++ [("srsearch", plus_to_space t); ("origin", "*")].
Proof.
  intros Hp Ht. unfold url_params. rewrite request_query_search by done.
  rewrite strip_tab_newline_id by by apply term_plain_printable.
  rewrite break_at_notin.
  2: { rewrite !not_elem_of_app, not_elem_of_cons.
       repeat split; [decide_closed|by apply term_plain_notin; [|set_solver]|decide_closed|decide_closed]. }
  cbn [fst]. rewrite !query_encode_app, query_encode_amp, (query_encode_id search_query_head),
    (query_encode_id (String.list_ascii_of_string "origin=*")) by decide_closed.
  by rewrite params_of_search_more.
Qed.

(** ... and from one whose term holds a [#] after a plain part: the
    fragment is not sent. *)
Lemma url_params_search_fragment (p : profile) (a b : string) :
  is_profile p → term_plain a →
  url_params (search_url p (a +:+ "#" +:+ b)) = search_params_head ++ [("srsearch", plus_to_space a)].
Proof.
  intros Hp Ha. unfold url_params. rewrite request_query_search by done.
  rewrite !list_ascii_of_string_app, !strip_tab_newline_app.
  rewrite (strip_tab_newline_id (String.list_ascii_of_string a)) by by apply term_plain_printable.
  change (strip_tab_newline (String.list_ascii_of_string "#")) with ["#"%char].
  rewrite <- !app_assoc. cbn [app]. rewrite app_assoc, break_at_hit.
  2: { rewrite not_elem_of_app. split; [decide_closed|by apply term_plain_notin; [|set_solver]]. }
  cbn [fst]. rewrite query_encode_app, (query_encode_id search_query_head) by decide_closed.
  by rewrite params_of_search_end.
Qed.



(** ** Properties of the URLs *)

(** C7: the search term round-trips through the search URL.  For either
    language profile and a term of printable ASCII characters other than
    [&], [#], [+] and [%], the server reads back the term as [srsearch],
    and reads [origin=*] and [list=search]. *)
Theorem search_term_roundtrip (p : profile) (t : string) :
  is_profile p → term_safe t →
  query_param "srsearch" (search_url p t) = Some t ∧
  query_param "origin" (search_url p t) = Some "*" ∧
  query_param "list" (search_url p t) = Some "search".
Proof.
  intros Hp Ht. unfold query_param.
  rewrite url_params_search by (done || by apply term_safe_plain).
  rewrite plus_to_space_id; [repeat split; reflexivity|].
  intros Hin. unfold term_safe in Ht. rewrite Forall_forall in Ht. apply (Ht _ Hin). unfold reserved. set_solver.
Qed.

Lemma search_term_roundtrip_witness :
  term_safe "black cat" ∧ query_param "srsearch" (search_url langEn "black cat") = Some "black cat".
Proof.
  split; [decide_closed|].
  apply (search_term_roundtrip langEn "black cat"); [left; reflexivity|decide_closed].
Defined.

Lemma search_url_host (p : profile) (t : string) :
  is_profile p → url_host (search_url p t) = Some (language p +:+ ".wikipedia.org").
Proof.
  intros Hp. unfold url_host. rewrite search_url_chars, baseUrl_chars by done.
  destruct Hp as [-> | ->]; reflexivity.
Qed.

Lemma random_url_host (p : profile) :
  is_profile p → url_host (random_url p) = Some (language p +:+ ".wikipedia.org").
Proof.
  intros Hp. unfold url_host, random_url. rewrite list_ascii_of_string_app, baseUrl_chars by done.
  destruct Hp as [-> | ->]; reflexivity.
Qed.

(** C18: every request goes to the Wikipedia of the selected locale.  The
    host of a search URL, whatever the term, and of the random URL is
    [<language>.wikipedia.org] for the profile that built it. *)
Theorem request_host (p : profile) (t : string) :
  is_profile p →
  url_host (search_url p t) = Some (language p +:+ ".wikipedia.org") ∧
  url_host (random_url p) = Some (language p +:+ ".wikipedia.org").
Proof. intros Hp. split; [apply search_url_host|apply random_url_host]; done. Qed.

Lemma request_host_witness :
  url_host (search_url langFr "Chat") = Some "fr.wikipedia.org".
Proof. apply (request_host langFr "Chat"). right; reflexivity. Defined.

(** C23: the term goes into the URL unencoded, so the server does not read
    it back.  For a plain term (printable ASCII without [&], [#], [%]), the
    server reads [srsearch] with every [+] turned into a space.  A [#]
    after a plain part [a] ends the query: whatever follows, the server
    reads [a] alone, and the [origin=*] parameter is lost, so the browser's
    cross-origin check fails on the answer. *)
Theorem search_term_unencoded (p : profile) (a b : string) :
  is_profile p → term_plain a →
  query_param "srsearch" (search_url p a) = Some (plus_to_space a) ∧
  query_param "srsearch" (search_url p (a +:+ "#" +:+ b)) = Some (plus_to_space a) ∧
  query_param "origin" (search_url p (a +:+ "#" +:+ b)) = None.
Proof.
  intros Hp Ha. unfold query_param.
  rewrite url_params_search, url_params_search_fragment by done.
  repeat split; reflexivity.
Qed.

Lemma search_term_unencoded_witness :
  term_plain "c++" ∧
  query_param "srsearch" (search_url langFr "c++") = Some "c  " ∧
  query_param "srsearch" (search_url langFr ("c++" +:+ "#" +:+ "sharp")) = Some "c  " ∧
  query_param "origin" (search_url langFr ("c++" +:+ "#" +:+ "sharp")) = None.
Proof.
  split; [decide_closed|].
  apply (search_term_unencoded langFr "c++" "sharp"); [right; reflexivity|decide_closed].
Defined.

End Urls.
