(* ===== verification/Handlers.v ===== *)
(** * The component's state and its handlers (App.js lines 8-90, 116, 143)

    The four [useState] hooks form the record [app].  A handler is a
    computation in the [wr] monad of [Prelude].  It emits, in source order,
    the effects the body performs: a setter call, an [axios.get] with the
    callbacks it registers, or a [console.log].  It then returns, or
    throws a JavaScript error.

    Every closure of the component reads the state of the render that
    created it.  So a handler takes that [app] as its argument.  The
    callbacks of a request read the [langChoice] of the render that sent
    it, so a request carries that profile in its [req_cb].
    [apply_effects] gives the new state: each setter here takes a value,
    so applying the effects in order is what React's batched updates
    produce. *)

From S2P Require Import Prelude JsValue LangProfile Urls.
Import Js Lang Urls.

Module Handlers.

(** ** State, requests, effects *)

(** [results], [searchTerm], [lang], [loading] (lines 9-12). *)
Record app : Type := {
  results : jsval;
  searchTerm : string;
  lang : bool;
  loading : bool;
}.

(** The initial values passed to [useState]. *)
Definition app_init : app := {|
  results := JArr [];
  searchTerm := "";
  lang := false;
  loading := false;
|}.

(** What a request's callbacks need: a search's [.then] reads the
    [langChoice] of the render that sent it; a random request's reads
    nothing. *)
Inductive callback : Type :=
| KSearch (closure : profile)
| KRandom.

(** An [axios.get(url)] with its [.then]/[.catch] callbacks. *)
Record request : Type := {
  req_url : string;
  req_cb : callback;
}.

Inductive log_entry : Type :=
| LogText (s : string)
| LogError (e : js_error).

Inductive effect : Type :=
| SetResults (v : jsval)
| SetSearchTerm (s : string)
| SetLang (b : bool)
| SetLoading (b : bool)
| Get (r : request)
| Log (l : log_entry).

Abbreviation hook := (wr effect js_error).

(** A setter call replaces one field; the other effects leave the state. *)
Definition apply_effect (a : app) (e : effect) : app :=
  match e with
  | SetResults v => {| results := v; searchTerm := searchTerm a; lang := lang a; loading := loading a |}
  | SetSearchTerm s => {| results := results a; searchTerm := s; lang := lang a; loading := loading a |}
  | SetLang b => {| results := results a; searchTerm := searchTerm a; lang := b; loading := loading a |}
  | SetLoading b => {| results := results a; searchTerm := searchTerm a; lang := lang a; loading := b |}
  | Get _ | Log _ => a
  end.

Definition apply_effects (a : app) (es : list effect) : app := foldl apply_effect a es.

Definition requests_of (es : list effect) : list request :=
  omap (λ e, match e with Get r => Some r | _ => None end) es.

Definition logs_of (es : list effect) : list log_entry :=
  omap (λ e, match e with Log l => Some l | _ => None end) es.

(** ** The handlers *)

(** [handleLanguage]: [setLang(!lang); setResults([]);] *)
Definition handleLanguage (a : app) : hook unit :=
  emit (SetLang (negb (lang a)));;
  emit (SetResults (JArr [])).

(** [mediaWikiSearch(searchTerm)]: clear, show the spinner, send the query
    of the current language. *)
Definition mediaWikiSearch (a : app) (term : string) : hook unit :=
  emit (SetResults (JArr []));;
  emit (SetLoading true);;
  let p := langChoice (lang a) in
  emit (Get {| req_url := search_url p term; req_cb := KSearch p |}).

(** [handleSubmit]: search only when the term is not empty, then clear the
    input.  [e.preventDefault()] changes no state of the component. *)
Definition handleSubmit (a : app) : hook unit :=
  if 0 <? String.length (searchTerm a) then
    mediaWikiSearch a (searchTerm a);;
    emit (SetSearchTerm "")
  else mret tt.

(** [handleRandom]. *)
Definition handleRandom (a : app) : hook unit :=
  emit (SetSearchTerm "");;
  emit (SetResults (JArr []));;
  emit (SetLoading true);;
  emit (Get {| req_url := random_url (langChoice (lang a)); req_cb := KRandom |}).

(** The clear button: [onClick={() => setResults([])}] (line 143). *)
Definition handleClear : hook unit := emit (SetResults (JArr [])).

(** The input: [onChange={(e) => setSearchTerm(e.target.value)}] (line 116). *)
Definition handleInput (value : string) : hook unit := emit (SetSearchTerm value).

(** ** The promise callbacks *)

(** The [.then] of a search (lines 81-86).  [data] is [response.data]. *)
Definition onSearchFulfilled (p : profile) (data : jsval) : hook unit :=
  emit (SetLoading false);;
  q ← lift (get_prop data "query");
  s ← lift (get_prop q "search");
  n ← lift (get_prop s "length");
  if gt_zero n then
    q' ← lift (get_prop data "query");
    s' ← lift (get_prop q' "search");
    emit (SetResults s')
  else emit (SetResults (JArr [JStr (noResults p)])).

(** The [.then] of a random request (lines 63-68): the page is
    [pages[Object.keys(pages)]]. *)
Definition onRandomFulfilled (data : jsval) : hook unit :=
  emit (SetLoading false);;
  q ← lift (get_prop data "query");
  pages ← lift (get_prop q "pages");
  q' ← lift (get_prop data "query");
  pages' ← lift (get_prop q' "pages");
  ks ← lift (object_keys pages');
  page ← lift (get_prop pages (join_keys ks));
  emit (SetResults (JArr [page])).

Definition on_fulfilled (k : callback) (data : jsval) : hook unit :=
  match k with
  | KSearch p => onSearchFulfilled p data
  | KRandom => onRandomFulfilled data
  end.

(** The [.catch] handlers: [console.log(error)] (line 88) and
    [console.log("error")] (line 70). *)
Definition on_rejected (k : callback) (e : js_error) : hook unit :=
  match k with
  | KSearch _ => emit (Log (LogError e))
  | KRandom => emit (Log (LogText "error"))
  end.

(** [axios.get(url).then(f).catch(g)] once the request settles: [g] runs on
    a failed request and on an error thrown by [f]. *)
Definition settle (k : callback) (outcome : jsres jsval) : hook unit :=
  match outcome with
  | Ok data => on_fulfilled k data catch! on_rejected k
  | Throw e => on_rejected k e
  end.

(** ** Lemmas *)

Lemma apply_effects_app (a : app) (es1 es2 : list effect) :
  apply_effects a (es1 ++ es2) = apply_effects (apply_effects a es1) es2.
Proof. unfold apply_effects. by rewrite foldl_app. Qed.

(** The search callback on a response whose [query.search] is an array. *)
Lemma onSearchFulfilled_array (p : profile) (data q : jsval) (xs : list jsval) :
  get_prop data "query" = Ok q → get_prop q "search" = Ok (JArr xs) →
  onSearchFulfilled p data =
  ([SetLoading false; SetResults (if bool_decide (xs = []) then JArr [JStr (noResults p)]
                                  else JArr xs)], Ok tt).
Proof.
  intros Hq Hs. unfold onSearchFulfilled. rewrite Hq. cbn. rewrite Hs. cbn.
  unfold gt_zero. cbn. destruct xs as [|x xs]; [reflexivity|].
  rewrite bool_decide_false by done. reflexivity.
Qed.

(** The search callback when reading [query.search.length] throws. *)
Lemma onSearchFulfilled_throw (p : profile) (data : jsval) (e : js_error) :
  (q ← get_prop data "query"; s ← get_prop q "search"; get_prop s "length") = Throw e →
  onSearchFulfilled p data = ([SetLoading false], Throw e).
Proof.
  unfold onSearchFulfilled. intros He.
  destruct (get_prop data "query") as [q|e']; cbn in He |- *; [|by inversion He].
  destruct (get_prop q "search") as [s'|e']; cbn in He |- *; [|by inversion He].
  by rewrite He.
Qed.

(** The random callback on a response whose [query.pages] is an object:
    the page is the object's only field, and [undefined] when it has none
    or several. *)
Lemma onRandomFulfilled_object (data q : jsval) (fs : list (string * jsval)) :
  get_prop data "query" = Ok q → get_prop q "pages" = Ok (JObj fs) →
  onRandomFulfilled data =
  ([SetLoading false; SetResults (JArr [match fs with [(_, v)] => v | _ => JUndefined end])],
   Ok tt).
Proof.
  intros Hq Hp. unfold onRandomFulfilled. rewrite Hq. cbn - [get_prop]. rewrite Hp.
  cbn - [get_prop]. by rewrite get_prop_at_own_keys.
Qed.

Lemma apply_setters (a : app) v s b l :
  apply_effects a [SetResults v; SetSearchTerm s; SetLang b; SetLoading l] =
  {| results := v; searchTerm := s; lang := b; loading := l |}.
Proof. reflexivity. Qed.

(** ** The handlers' behaviour *)

(** C1: submitting a non-empty term sends exactly one request, a search
    for that term in the selected language, whose callback keeps that
    language's profile.  The state then has no results, the spinner on,
    the input cleared and the language unchanged. *)
Theorem handleSubmit_sends_one_search (a : app) :
  searchTerm a ≠ "" →
  requests_of (emitted (handleSubmit a)) =
    [{| req_url := search_url (langChoice (lang a)) (searchTerm a);
        req_cb := KSearch (langChoice (lang a)) |}] ∧
  apply_effects a (emitted (handleSubmit a)) =
    {| results := JArr []; searchTerm := ""; lang := lang a; loading := true |}.
Proof.
  intros Ht. destruct a as [r [|c t] l ld]; [done|]. split; reflexivity.
Qed.

Lemma handleSubmit_sends_one_search_witness :
  requests_of (emitted (handleSubmit {| results := JArr []; searchTerm := "Cat"; lang := false; loading := false |})) =
  [{| req_url := search_url langEn "Cat"; req_cb := KSearch langEn |}].
Proof. apply (handleSubmit_sends_one_search {| results := JArr []; searchTerm := "Cat"; lang := false; loading := false |}). done. Defined.

(** C11: submitting with an empty input does nothing: no effect at all, so
    no request and no change of state. *)
Theorem handleSubmit_empty_noop (a : app) :
  searchTerm a = "" → handleSubmit a = ([], Ok tt).
Proof. intros Ht. unfold handleSubmit. by rewrite Ht. Qed.

Lemma handleSubmit_empty_noop_witness :
  handleSubmit app_init = ([], Ok tt).
Proof. by apply handleSubmit_empty_noop. Defined.

(** C9: the language button flips the flag, hence selects the other
    profile, and empties the results.  It leaves the term and the spinner
    as they were and sends nothing. *)
Theorem handleLanguage_spec (a : app) :
  let a' := apply_effects a (emitted (handleLanguage a)) in
  a' = {| results := JArr []; searchTerm := searchTerm a; lang := negb (lang a); loading := loading a |} ∧
  langChoice (lang a') = (if lang a then langEn else langFr) ∧
  requests_of (emitted (handleLanguage a)) = [].
Proof. destruct a as [r t [|] ld]; repeat split. Qed.

(** C12: the random button clears the term and the results, turns the
    spinner on, and sends one request for a random article of the
    selected language. *)
Theorem handleRandom_spec (a : app) :
  apply_effects a (emitted (handleRandom a)) =
    {| results := JArr []; searchTerm := ""; lang := lang a; loading := true |} ∧
  requests_of (emitted (handleRandom a)) =
    [{| req_url := random_url (langChoice (lang a)); req_cb := KRandom |}].
Proof. split; reflexivity. Qed.

(** C10: the clear button empties the results and changes nothing else. *)
Theorem handleClear_spec (a : app) :
  apply_effects a (emitted handleClear) =
    {| results := JArr []; searchTerm := searchTerm a; lang := lang a; loading := loading a |} ∧
  requests_of (emitted handleClear) = [].
Proof. split; reflexivity. Qed.

(** ** The callbacks' behaviour *)

(** C2: a search response whose [query.search] is an array turns the
    spinner off.  A non-empty array becomes the results as it is, in the
    API's order.  An empty one becomes the single "no results" sentinel of
    the profile captured when the search was sent.  Nothing is logged. *)
Theorem settle_search_array (a : app) (p : profile) (data q : jsval) (xs : list jsval) :
  get_prop data "query" = Ok q → get_prop q "search" = Ok (JArr xs) →
  apply_effects a (emitted (settle (KSearch p) (Ok data))) =
    {| results := if bool_decide (xs = []) then JArr [JStr (noResults p)] else JArr xs;
       searchTerm := searchTerm a; lang := lang a; loading := false |} ∧
  logs_of (emitted (settle (KSearch p) (Ok data))) = [].
Proof.
  intros Hq Hs. unfold settle, on_fulfilled.
  rewrite (mcatch_ok _ _ tt); rewrite (onSearchFulfilled_array p data q xs) by done; [|done].
  split; reflexivity.
Qed.

Lemma settle_search_array_witness :
  apply_effects app_init
    (emitted (settle (KSearch langEn) (Ok (JObj [("query", JObj [("search", JArr [])])])))) =
  {| results := JArr [JStr "No results found"]; searchTerm := ""; lang := false; loading := false |}.
Proof.
  apply (settle_search_array app_init langEn _ (JObj [("search", JArr [])]) []); reflexivity.
Defined.

(** C6: a request that fails (a transport or HTTP error) only logs.  The
    state is left as it was, the spinner included: [loading] is not reset
    on this path. *)
Theorem settle_failure_keeps_state (a : app) (k : callback) (e : js_error) :
  apply_effects a (emitted (settle k (Throw e))) = a ∧
  requests_of (emitted (settle k (Throw e))) = [] ∧
  length (logs_of (emitted (settle k (Throw e)))) = 1.
Proof. destruct k; repeat split. Qed.

(** C14: a search response of another shape, on which reading
    [query.search.length] throws, turns the spinner off before the throw.
    The [.catch] then logs the error, and the results stay as they were. *)
Theorem settle_search_malformed (a : app) (p : profile) (data : jsval) (e : js_error) :
  (q ← get_prop data "query"; s ← get_prop q "search"; get_prop s "length") = Throw e →
  apply_effects a (emitted (settle (KSearch p) (Ok data))) =
    {| results := results a; searchTerm := searchTerm a; lang := lang a; loading := false |} ∧
  logs_of (emitted (settle (KSearch p) (Ok data))) = [LogError e].
Proof.
  intros He. unfold settle, on_fulfilled, mcatch.
  rewrite (onSearchFulfilled_throw p data e) by done. split; reflexivity.
Qed.

Lemma settle_search_malformed_witness :
  logs_of (emitted (settle (KSearch langEn) (Ok (JStr "")))) =
  [LogError (TypeError "Cannot read properties of undefined (reading 'search')")].
Proof. apply (settle_search_malformed app_init). reflexivity. Defined.

(** C13: a random-article response whose [query.pages] is an object turns
    the spinner off and shows one item, the object's only page.  With no
    page or several, [pages[Object.keys(pages)]] reads a key that is not
    there, and the one item is [undefined]. *)
Theorem settle_random_pages (a : app) (data q : jsval) (fs : list (string * jsval)) :
  get_prop data "query" = Ok q → get_prop q "pages" = Ok (JObj fs) →
  apply_effects a (emitted (settle KRandom (Ok data))) =
    {| results := JArr [match fs with [(_, v)] => v | _ => JUndefined end];
       searchTerm := searchTerm a; lang := lang a; loading := false |}.
Proof.
  intros Hq Hp. unfold settle, on_fulfilled.
  rewrite (mcatch_ok _ _ tt); rewrite (onRandomFulfilled_object data q fs) by done; done.
Qed.

Lemma settle_random_pages_witness :
  apply_effects app_init
    (emitted (settle KRandom (Ok (JObj [("query", JObj [("pages",
       JObj [("1", JObj [("title", JStr "A")]); ("2", JObj [("title", JStr "B")])])])])))) =
  {| results := JArr [JUndefined]; searchTerm := ""; lang := false; loading := false |}.
Proof.
  exact (settle_random_pages app_init
           (JObj [("query", JObj [("pages",
              JObj [("1", JObj [("title", JStr "A")]); ("2", JObj [("title", JStr "B")])])])])
           (JObj [("pages", JObj [("1", JObj [("title", JStr "A")]); ("2", JObj [("title", JStr "B")])])])
           [("1", JObj [("title", JStr "A")]); ("2", JObj [("title", JStr "B")])]
           eq_refl eq_refl).
Defined.

End Handlers.
