(* ===== verification/EventLoop.v ===== *)
(** * The event loop: user events, settling requests, reachable worlds

    A [world] is what the page holds between two events:
    - the component state;
    - the requests sent and not yet settled, each with the closure its
      callbacks captured;
    - the console log.
    [step] runs one event to completion, which is the only granularity the
    single JavaScript thread allows:
    - a user event runs the handler the JSX binds to it (lines 101-147)
      against the current state;
    - [EvSettle i o] settles the [i]-th request in flight with outcome [o]
      (a response, or an axios error) and runs its callbacks.
    Requests settle in any order: nothing in the program orders them.

    [reachable_under ok] is the set of worlds that runs reach when every
    response satisfies [ok]; [reachable] allows every response.  The
    invariants are proved by induction on it. *)

From S2P Require Import Prelude JsValue LangProfile Urls Handlers.
Import Js Lang Urls Handlers.

Module EventLoop.

Record world : Type := {
  ui : app;
  inflight : list request;
  log : list log_entry;
}.

Definition world_init : world := {| ui := app_init; inflight := []; log := [] |}.

Inductive event : Type :=
| EvInput (value : string)
| EvToggle
| EvSubmit
| EvRandom
| EvClear
| EvSettle (i : nat) (outcome : jsres jsval).

(** Run a handler to completion: apply its setter calls, send its
    requests, write its log lines. *)
Definition run (w : world) (h : hook unit) : world :=
  let es := emitted h in
  {| ui := apply_effects (ui w) es;
     inflight := inflight w ++ requests_of es;
     log := log w ++ logs_of es |}.

(** The handler each event runs: the bindings of the JSX, and the promise
    callbacks of a request that settles. *)
Definition step (w : world) (ev : event) : option world :=
  match ev with
  | EvInput v => Some (run w (handleInput v))
  | EvToggle => Some (run w (handleLanguage (ui w)))
  | EvSubmit => Some (run w (handleSubmit (ui w)))
  | EvRandom => Some (run w (handleRandom (ui w)))
  | EvClear => Some (run w handleClear)
  | EvSettle i o =>
      r ← inflight w !! i;
      Some (run {| ui := ui w; inflight := delete i (inflight w); log := log w |}
                (settle (req_cb r) o))
  end.

Fixpoint run_events (w : world) (evs : list event) : option world :=
  match evs with
  | [] => Some w
  | ev :: evs' => w' ← step w ev; run_events w' evs'
  end.

Section reach.
(** The responses the remote API may send for a request. *)
Context (ok : callback → jsres jsval → Prop).

(** An event is allowed when it is a user event, or settles a request
    with an outcome [ok] accepts. *)
Definition allowed (w : world) (ev : event) : Prop :=
  match ev with
  | EvSettle i o => ∀ r, inflight w !! i = Some r → ok (req_cb r) o
  | _ => True
  end.

Inductive reachable_under : world → Prop :=
| reach_init : reachable_under world_init
| reach_step w ev w' :
    reachable_under w → allowed w ev → step w ev = Some w' → reachable_under w'.
End reach.

Definition reachable : world → Prop := reachable_under (λ _ _, True).

(** ** What the callbacks of a settled request do *)

(** Effects that leave [searchTerm], [lang] and [loading] alone and send
    nothing. *)
Definition quiet (e : effect) : Prop :=
  match e with SetResults _ | Log _ => True | _ => False end.

Lemma settle_ok_shape (k : callback) (data : jsval) :
  ∃ rest, emitted (settle k (Ok data)) = SetLoading false :: rest ∧ Forall quiet rest.
Proof.
  destruct k as [p|]; unfold settle, on_fulfilled, onSearchFulfilled, onRandomFulfilled, mcatch;
    cbn; repeat (case_match; unfold emit in *; simplify_eq/=);
    eexists; split; try reflexivity; repeat constructor.
Qed.

Lemma settle_throw_shape (k : callback) (e : js_error) :
  ∃ l, emitted (settle k (Throw e)) = [Log l].
Proof. destruct k; eexists; reflexivity. Qed.

Lemma quiet_requests (es : list effect) : Forall quiet es → requests_of es = [].
Proof. induction 1 as [|[] es Hq _ IH]; cbn in *; done. Qed.

Lemma quiet_apply (a : app) (es : list effect) :
  Forall quiet es →
  searchTerm (apply_effects a es) = searchTerm a ∧ lang (apply_effects a es) = lang a ∧
  loading (apply_effects a es) = loading a.
Proof.
  revert a. induction es as [|e es IH]; intros a Hq; [done|].
  apply Forall_cons in Hq as [He Hq].
  change (apply_effects a (e :: es)) with (apply_effects (apply_effect a e) es).
  destruct (IH (apply_effect a e) Hq) as (-> & -> & ->). by destruct e.
Qed.

Lemma settle_requests (k : callback) (o : jsres jsval) :
  requests_of (emitted (settle k o)) = [].
Proof.
  destruct o as [data|e].
  - destruct (settle_ok_shape k data) as (rest & -> & Hq).
    change (requests_of rest = []). by apply quiet_requests.
  - by destruct (settle_throw_shape k e) as [l ->].
Qed.

(** After a response, whatever its shape, the spinner is off; the term and
    the language are never touched by a callback. *)
Lemma settle_ok_app (a : app) (k : callback) (data : jsval) :
  let a' := apply_effects a (emitted (settle k (Ok data))) in
  loading a' = false ∧ searchTerm a' = searchTerm a ∧ lang a' = lang a.
Proof.
  destruct (settle_ok_shape k data) as (rest & -> & Hq).
  change (apply_effects a (SetLoading false :: rest))
    with (apply_effects (apply_effect a (SetLoading false)) rest).
  destruct (quiet_apply (apply_effect a (SetLoading false)) rest Hq) as (Ht & Hl & Hd).
  cbn zeta. rewrite Ht, Hl, Hd. done.
Qed.

Lemma settle_throw_app (a : app) (k : callback) (e : js_error) :
  apply_effects a (emitted (settle k (Throw e))) = a.
Proof. by destruct (settle_throw_shape k e) as [l ->]. Qed.

(** ** What one step does *)

Definition user_event (ev : event) : Prop :=
  match ev with EvSettle _ _ => False | _ => True end.

Lemma run_ui (w : world) (h : hook unit) : ui (run w h) = apply_effects (ui w) (emitted h).
Proof. reflexivity. Qed.

Lemma run_inflight (w : world) (h : hook unit) :
  inflight (run w h) = inflight w ++ requests_of (emitted h).
Proof. reflexivity. Qed.

Lemma run_log (w : world) (h : hook unit) : log (run w h) = log w ++ logs_of (emitted h).
Proof. reflexivity. Qed.

(** A settling step: the request leaves the flight list and its callbacks
    run. *)
Lemma step_settle (w w' : world) (i : nat) (o : jsres jsval) :
  step w (EvSettle i o) = Some w' →
  ∃ r, inflight w !! i = Some r ∧
       w' = run {| ui := ui w; inflight := delete i (inflight w); log := log w |}
                (settle (req_cb r) o).
Proof. cbn. destruct (inflight w !! i) as [r|]; intros H; simplify_eq/=; eauto. Qed.

Ltac step_cases H :=
  match type of H with
  | step ?w ?ev = Some _ =>
      destruct ev as [v| | | | |i o];
      [cbn in H; simplify_eq..|
       let r := fresh "r" in let Hr := fresh "Hr" in
       apply step_settle in H as (r & Hr & ->)]
  end.

Lemma step_log_prefix (w w' : world) (ev : event) :
  step w ev = Some w' → log w `prefix_of` log w'.
Proof. intros H. step_cases H; rewrite ?run_log; by eexists. Qed.

Lemma step_user_inflight (w w' : world) (ev : event) :
  step w ev = Some w' → user_event ev → inflight w `prefix_of` inflight w'.
Proof. intros H Hu. step_cases H; try done; rewrite run_inflight; by eexists. Qed.

(** The spinner turns on only together with a new request. *)
Lemma step_loading_rise (w w' : world) (ev : event) :
  step w ev = Some w' → loading (ui w) = false → loading (ui w') = true → inflight w' ≠ [].
Proof.
  intros H Hl Hl'. step_cases H.
  1,2,5: cbn in Hl'; try congruence.
  - destruct w as [[res [|c t] lg ld] inf lo]; cbn in *; [congruence|].
    by destruct inf.
  - destruct w as [[res t lg ld] inf lo]; cbn in *. by destruct inf.
  - destruct o as [data|e].
    + rewrite run_ui in Hl'. cbn [ui] in Hl'.
      destruct (settle_ok_app (ui w) (req_cb r) data) as [Hf _]. congruence.
    + rewrite run_ui in Hl'. cbn [ui] in Hl'. rewrite settle_throw_app in Hl'. congruence.
Qed.

(** A user event never turns the spinner off. *)
Lemma step_user_loading (w w' : world) (ev : event) :
  step w ev = Some w' → user_event ev → loading (ui w) = true → loading (ui w') = true.
Proof.
  intros H Hu Hl. step_cases H; try done; cbn; try done.
  unfold handleSubmit. by destruct (0 <? String.length (searchTerm (ui w))).
Qed.

Lemma reachable_step (w w' : world) (ev : event) :
  reachable w → step w ev = Some w' → reachable w'.
Proof. intros Hr Hs. eapply reach_step; [done| |done]. by destruct ev. Qed.

Lemma run_events_reachable (w w' : world) (evs : list event) :
  reachable w → run_events w evs = Some w' → reachable w'.
Proof.
  revert w. induction evs as [|ev evs IH]; cbn; intros w Hr Hrun; [by simplify_eq|].
  destruct (step w ev) as [w1|] eqn:Hs; [|done].
  apply (IH w1); [by eapply reachable_step|done].
Qed.

Lemma run_events_app (w : world) (evs1 evs2 : list event) :
  run_events w (evs1 ++ evs2) = w1 ← run_events w evs1; run_events w1 evs2.
Proof.
  revert w. induction evs1 as [|ev evs1 IH]; intros w; cbn; [done|].
  destruct (step w ev); cbn; [apply IH|done].
Qed.

(** The events of a run are allowed, each in the world it is run in. *)
Fixpoint run_allowed (ok : callback → jsres jsval → Prop) (w : world) (evs : list event) : Prop :=
  match evs with
  | [] => True
  | ev :: evs' =>
      allowed ok w ev ∧ match step w ev with Some w' => run_allowed ok w' evs' | None => True end
  end.

Lemma run_events_reachable_under (ok : callback → jsres jsval → Prop) (w w' : world)
    (evs : list event) :
  reachable_under ok w → run_allowed ok w evs → run_events w evs = Some w' →
  reachable_under ok w'.
Proof.
  revert w. induction evs as [|ev evs IH]; cbn; intros w Hr Hal Hrun; [by simplify_eq|].
  destruct Hal as [Hal Hrest]. destruct (step w ev) as [w1|] eqn:Hs; [|done].
  apply (IH w1); [by eapply reach_step|done|done].
Qed.

(** ** The spinner *)

(** Only a response turns the spinner off: a step from [loading = true] to
    [loading = false] settles a request with a response. *)
Lemma loading_fall_response (w w' : world) (ev : event) :
  step w ev = Some w' → loading (ui w) = true → loading (ui w') = false →
  ∃ i data, ev = EvSettle i (Ok data).
Proof.
  intros H Hl Hl'. destruct ev as [| | | | |i [data|e]];
    try (rewrite (step_user_loading w w' _) in Hl' by done; discriminate).
  - by eauto.
  - apply step_settle in H as (r & _ & ->).
    rewrite run_ui in Hl'. cbn [ui] in Hl'. rewrite settle_throw_app in Hl'. congruence.
Qed.



(** C8: a spinner that stays on has a reason the operator can see.  In
    every reachable world, whatever the responses, [loading = true]
    means a request is still in flight or an error has been logged. *)
Theorem stuck_spinner_logged (ok : callback → jsres jsval → Prop) (w : world) :
  reachable_under ok w → loading (ui w) = true → inflight w ≠ [] ∨ log w ≠ [].
Proof.
  induction 1 as [|w ev w' Hr IH _ Hs]; [done|]. intros Hl'.
  destruct (loading (ui w)) eqn:Hl; [|left; by eapply step_loading_rise].
  pose proof (step_log_prefix _ _ _ Hs) as Hlog.
  destruct (IH eq_refl) as [Hin|Hlg]; [|right; by eapply prefix_ne].
  destruct ev as [| | | | |i [data|e]];
    try (left; eapply prefix_ne; [by eapply step_user_inflight|done]).
  - apply step_settle in Hs as (r & _ & ->). rewrite run_ui in Hl'. cbn [ui] in Hl'.
    destruct (settle_ok_app (ui w) (req_cb r) data) as [Hf _]. congruence.
  - apply step_settle in Hs as (r & _ & ->). right. rewrite run_log.
    destruct (settle_throw_shape (req_cb r) e) as [l ->]. cbn. by destruct (log w).
Qed.

Lemma stuck_spinner_logged_witness :
  reachable {| ui := {| results := JArr []; searchTerm := ""; lang := false; loading := true |};
               inflight := [{| req_url := random_url langEn; req_cb := KRandom |}]; log := [] |} ∧
  ({| req_url := random_url langEn; req_cb := KRandom |} :: [] ≠ [] ∨ @nil log_entry ≠ []).
Proof.
  assert (Hr : reachable {| ui := {| results := JArr []; searchTerm := ""; lang := false; loading := true |};
               inflight := [{| req_url := random_url langEn; req_cb := KRandom |}]; log := [] |}).
  { apply (run_events_reachable world_init _ [EvRandom]); [constructor|reflexivity]. }
  split; [exact Hr|].
  exact (stuck_spinner_logged _ _ Hr eq_refl).
Defined.

(** ** The requests in flight *)

(** A request as the handlers build it: a search for a non-empty term whose
    callback holds the profile its URL was built with, or a random-article
    request; either for one of the two profiles. *)
Definition wf_request (r : request) : Prop :=
  match req_cb r with
  | KSearch p => is_profile p ∧ ∃ t, t ≠ "" ∧ req_url r = search_url p t
  | KRandom => ∃ p, is_profile p ∧ req_url r = random_url p
  end.

Lemma user_requests_wf (w w' : world) (ev : event) :
  step w ev = Some w' → user_event ev →
  ∃ rs, inflight w' = inflight w ++ rs ∧ Forall wf_request rs.
Proof.
  intros H Hu. step_cases H; try done; rewrite run_inflight; eexists; split;
    [reflexivity| |reflexivity| |reflexivity| |reflexivity| |reflexivity|]; try by constructor.
  - unfold handleSubmit. destruct (searchTerm (ui w)) as [|c t] eqn:Ht; cbn; [constructor|].
    constructor; [|constructor]. split; [apply langChoice_is_profile|].
    by exists (String c t).
  - cbn. constructor; [|constructor]. eexists; split; [apply langChoice_is_profile|done].
Qed.

(** C4: in every reachable world, whatever the responses, each request in
    flight is well formed.  It is a search for a non-empty term, or a
    random-article request, for one of the two profiles.  A search's
    callback holds the profile its URL was built with, so the sentinel it
    may show is in the language of the query. *)
Theorem reachable_requests_wf (ok : callback → jsres jsval → Prop) (w : world) :
  reachable_under ok w → Forall wf_request (inflight w).
Proof.
  induction 1 as [|w ev w' Hr IH _ Hs]; [constructor|].
  destruct ev as [| | | | |i o];
    try (destruct (user_requests_wf _ _ _ Hs I) as (rs & -> & Hrs); by apply Forall_app).
  apply step_settle in Hs as (r & _ & ->).
  rewrite run_inflight, settle_requests, app_nil_r. by apply Forall_delete.
Qed.

Lemma reachable_requests_wf_witness :
  reachable {| ui := {| results := JArr []; searchTerm := ""; lang := false; loading := true |};
               inflight := [{| req_url := search_url langEn "Cat"; req_cb := KSearch langEn |}];
               log := [] |} ∧
  Forall wf_request [{| req_url := search_url langEn "Cat"; req_cb := KSearch langEn |}].
Proof.
  assert (Hr : reachable {| ui := {| results := JArr []; searchTerm := ""; lang := false; loading := true |};
               inflight := [{| req_url := search_url langEn "Cat"; req_cb := KSearch langEn |}];
               log := [] |}).
  { apply (run_events_reachable world_init _ [EvInput "Cat"; EvSubmit]); [constructor|reflexivity]. }
  split; [exact Hr|]. exact (reachable_requests_wf _ _ Hr).
Defined.

(** C5: once the spinner is on, it stays on until a response arrives.
    From a world with [loading = true], every run of events none of which
    settles a request with a response ends with [loading = true]: a failed
    request, typing, toggling the language or clearing never turns it
    off. *)
Theorem spinner_stays_without_response (w w' : world) (evs : list event) :
  loading (ui w) = true → run_events w evs = Some w' →
  Forall (λ ev, ∀ i data, ev ≠ EvSettle i (Ok data)) evs →
  loading (ui w') = true.
Proof.
  revert w. induction evs as [|ev evs IH]; cbn; intros w Hl Hrun Hno; [by simplify_eq|].
  destruct (step w ev) as [w1|] eqn:Hs; [|done].
  apply Forall_cons in Hno as [Hev Hno]. apply (IH w1); [|done|done].
  destruct (loading (ui w1)) eqn:Hl1; [done|].
  destruct (loading_fall_response w w1 ev Hs Hl Hl1) as (i & data & ->).
  by destruct (Hev i data).
Qed.

Lemma spinner_stays_without_response_witness :
  run_events
    {| ui := {| results := JArr []; searchTerm := ""; lang := false; loading := true |};
       inflight := [{| req_url := random_url langEn; req_cb := KRandom |}]; log := [] |}
    [EvSettle 0 (Throw (NetworkError "Network Error")); EvToggle; EvClear] =
  Some {| ui := {| results := JArr []; searchTerm := ""; lang := true; loading := true |};
          inflight := []; log := [LogText "error"] |} ∧
  loading (ui {| ui := {| results := JArr []; searchTerm := ""; lang := true; loading := true |};
                 inflight := []; log := [LogText "error"] |}) = true.
Proof.
  split; [reflexivity|].
  apply (spinner_stays_without_response
    {| ui := {| results := JArr []; searchTerm := ""; lang := false; loading := true |};
       inflight := [{| req_url := random_url langEn; req_cb := KRandom |}]; log := [] |}
    _ [EvSettle 0 (Throw (NetworkError "Network Error")); EvToggle; EvClear]); [done|done|].
  repeat constructor; discriminate.
Defined.

(** ** Answers applied in arrival order *)

(** A search response as the API sends it, and one search hit. *)
Definition search_query (hits : list jsval) : jsval :=
  JObj [("searchinfo", JObj [("totalhits", JNum (Z.of_nat (length hits)))]); ("search", JArr hits)].

Definition search_response (hits : list jsval) : jsval :=
  JObj [("batchcomplete", JStr ""); ("query", search_query hits)].

Definition hit (title : string) (pageid : Z) : jsval :=
  JObj [("ns", JNum 0); ("title", JStr title); ("pageid", JNum pageid);
        ("snippet", JStr ("<span class='searchmatch'>" +:+ title +:+ "</span>"))].

(** A search answer settles the [i]-th request, a search: the spinner
    goes off and [results] becomes the hits, or the sentinel of the
    profile the request's callback captured. *)
Lemma step_settle_hits (w : world) (i : nat) (r : request) (p : profile) (data q : jsval)
    (xs : list jsval) :
  inflight w !! i = Some r → req_cb r = KSearch p →
  get_prop data "query" = Ok q → get_prop q "search" = Ok (JArr xs) →
  step w (EvSettle i (Ok data)) =
  Some {| ui := {| results := if bool_decide (xs = []) then JArr [JStr (noResults p)] else JArr xs;
                   searchTerm := searchTerm (ui w); lang := lang (ui w); loading := false |};
          inflight := delete i (inflight w); log := log w |}.
Proof.
  intros Hi Hk Hq Hs. unfold step. rewrite Hi. cbn [mbind option_bind].
  unfold settle, on_fulfilled. rewrite Hk.
  rewrite (mcatch_ok _ _ tt) by (by rewrite (onSearchFulfilled_array p data q xs Hq Hs)).
  rewrite (onSearchFulfilled_array p data q xs Hq Hs).
  unfold run. cbn. by rewrite !app_nil_r.
Qed.

(** Typing and submitting a non-empty term: one search request joins the
    flight list, the input is cleared and the spinner is on. *)
Lemma run_input_submit (w : world) (t : string) :
  t ≠ "" →
  run_events w [EvInput t; EvSubmit] =
  Some {| ui := {| results := JArr []; searchTerm := ""; lang := lang (ui w); loading := true |};
          inflight := inflight w ++ [{| req_url := search_url (langChoice (lang (ui w))) t;
                                        req_cb := KSearch (langChoice (lang (ui w))) |}];
          log := log w |}.
Proof.
  intros Ht. destruct t as [|c t]; [done|].
  destruct w as [[res t0 l ld] inf lo]. cbn. unfold run. cbn. by rewrite !app_nil_r.
Qed.

(** C19: responses are applied in the order they arrive, with no check that
    they answer the latest query.  From any world, search for [a], then
    for [b], both non-empty: two search requests join the flight list.  If
    the answer for [b] arrives first and the answer for [a] last, with
    hits [xa], the page shows [xa], the answer to the older query, with
    the spinner off. *)
Theorem stale_response_wins (w : world) (a b : string) (xa xb : list jsval) :
  a ≠ "" → b ≠ "" → xa ≠ [] →
  let p := langChoice (lang (ui w)) in
  ∃ w2 w', run_events w [EvInput a; EvSubmit; EvInput b; EvSubmit] = Some w2 ∧
    inflight w2 = inflight w ++ [{| req_url := search_url p a; req_cb := KSearch p |};
                                 {| req_url := search_url p b; req_cb := KSearch p |}] ∧
    run_events w2 [EvSettle (length (inflight w) + 1) (Ok (search_response xb));
                   EvSettle (length (inflight w)) (Ok (search_response xa))] = Some w' ∧
    results (ui w') = JArr xa ∧ loading (ui w') = false ∧ inflight w' = inflight w.
Proof.
  intros Ha Hb Hxa p.
  eexists _, _. split.
  { change [EvInput a; EvSubmit; EvInput b; EvSubmit] with ([EvInput a; EvSubmit] ++ [EvInput b; EvSubmit]).
    rewrite run_events_app, run_input_submit by done. cbn [mbind option_bind].
    rewrite run_input_submit by done. reflexivity. }
  cbn [inflight ui lang]. rewrite <- app_assoc. cbn [List.app].
  split; [reflexivity|]. cbn [run_events].
  rewrite (step_settle_hits _ _ {| req_url := search_url p b; req_cb := KSearch p |} p
             (search_response xb) (search_query xb) xb)
    by (cbn [inflight req_cb]; by rewrite ?lookup_app_length).
  cbn [mbind option_bind run_events inflight ui searchTerm lang log].
  rewrite delete_app_length. cbn [delete list_delete].
  rewrite (step_settle_hits _ _ {| req_url := search_url p a; req_cb := KSearch p |} p
             (search_response xa) (search_query xa) xa)
    by (cbn [inflight req_cb]; rewrite ?lookup_app_r, ?Nat.sub_diag by done; done).
  cbn [mbind option_bind run_events inflight ui results loading].
  rewrite bool_decide_false, delete_middle, app_nil_r by done. done.
Qed.

Lemma stale_response_wins_witness :
  ∃ w2 w', run_events world_init [EvInput "Cat"; EvSubmit; EvInput "Dog"; EvSubmit] = Some w2 ∧
    inflight w2 = [{| req_url := search_url langEn "Cat"; req_cb := KSearch langEn |};
                         {| req_url := search_url langEn "Dog"; req_cb := KSearch langEn |}] ∧
    run_events w2 [EvSettle 1 (Ok (search_response [hit "Dog" 4269]));
                   EvSettle 0 (Ok (search_response [hit "Cat" 6678]))] = Some w' ∧
    results (ui w') = JArr [hit "Cat" 6678] ∧ loading (ui w') = false ∧ inflight w' = [].
Proof.
  exact (stale_response_wins world_init "Cat" "Dog" [hit "Cat" 6678] [hit "Dog" 4269]
           ltac:(discriminate) ltac:(discriminate) ltac:(discriminate)).
Defined.

End EventLoop.
