(* ===== verification/Render.v ===== *)
(** * What the component renders (App.js lines 92-200)

    [render] is the [return] of [App] as a function of the state.  It gives
    the labels of the profile, the input's value, the spinner, the results
    header and one [item] per element of [results]; or the error that
    rendering throws, which unmounts the page since the app has no error
    boundary.

    An item follows the [results.map] callback of lines 172-197:
    - the deep link [url] (the [pageid] is read first, which throws on
      [undefined]);
    - the heading [result.title ? result.title : results[0]];
    - the body, the raw [snippet] HTML or the [extract] text;
    - the link text.
    [render_child] is how React renders a value as a child:
    - a string or a number is text;
    - [true], [false], [null] and [undefined] render nothing;
    - an array renders its elements;
    - an object throws "Objects are not valid as a React child".
    [FlipMove] only animates its children and is left out. *)

From S2P Require Import Prelude JsValue LangProfile Urls Handlers EventLoop.
Import Js Lang Urls Handlers EventLoop.

Module Render.

(** ** React children *)

Fixpoint render_child (v : jsval) : jsres (list string) :=
  match v with
  | JUndefined | JNull | JBool _ => Ok []
  | JNum n => Ok [Z_to_dec n]
  | JStr s => Ok [s]
  | JArr xs =>
      (fix go (xs : list jsval) : jsres (list string) :=
         match xs with
         | [] => Ok []
         | x :: xs' => a ← render_child x; b ← go xs'; Ok (a ++ b)
         end) xs
  | JObj _ => Throw (PlainError "Objects are not valid as a React child")
  end.

(** ** One list item *)

Inductive body : Type :=
| BodyHtml (html : string)        (** [dangerouslySetInnerHTML={{ __html: result.snippet }}] *)
| BodyText (text : list string).  (** [<div> {result.extract && result.extract} </div>] *)

Record item : Type := {
  key : nat;
  heading : list string;
  item_body : body;
  href : option string;
  link_text : list string;
}.

(** The callback of [results.map] on [result] at [index]. *)
Definition render_item (p : profile) (rs : jsval) (index : nat) (result : jsval) : jsres item :=
  pageid ← get_prop result "pageid";
  let url := if truthy pageid then Some (article_url p pageid) else None in
  title ← get_prop result "title";
  h ← (if truthy title then Ok title else get_prop rs "0");
  snippet ← get_prop result "snippet";
  b ← (if truthy snippet then Ok (BodyHtml (to_string snippet))
       else extract ← get_prop result "extract";
            c ← render_child (js_and extract extract);
            Ok (BodyText ([" "] ++ c ++ [" "])));
  hc ← render_child h;
  l1 ← render_child (js_and title (JStr (more p)));
  l2 ← render_child (js_and title title);
  Ok {| key := index; heading := hc; item_body := b; href := url; link_text := l1 ++ [" "] ++ l2 |}.

Fixpoint render_items (p : profile) (rs : jsval) (index : nat) (xs : list jsval) : jsres (list item) :=
  match xs with
  | [] => Ok []
  | x :: xs' => it ← render_item p rs index x; its ← render_items p rs (S index) xs'; Ok (it :: its)
  end.

(** ** The page *)

Record view : Type := {
  v_button : string;
  v_placeholder : string;
  v_input : string;
  v_search : string;
  v_random : string;
  v_clear : string;
  v_spinner : bool;
  v_header : option string;
  v_items : list item;
}.

(** [results.map(...)]: [results] is an array in every state the handlers
    build from the API's documented answers; on anything else [.map] is
    missing and the call throws. *)
Definition map_results (p : profile) (rs : jsval) : jsres (list item) :=
  m ← get_prop rs "map";
  match rs with
  | JArr xs => render_items p rs 0 xs
  | _ => Throw (TypeError "results.map is not a function")
  end.

Definition render (a : app) : jsres view :=
  let p := langChoice (lang a) in
  header ← (if loading a then Ok None
            else n ← get_prop (results a) "length";
                 Ok (if gt_zero n then Some (Lang.results p) else None));
  items ← map_results p (results a);
  Ok {| v_button := button p; v_placeholder := placeholder p; v_input := searchTerm a;
        v_search := search p; v_random := random p; v_clear := clear p;
        v_spinner := loading a; v_header := header; v_items := items |}.

(** The value of a result, if there is one. *)
Definition Some_res {A} (r : jsres A) : option A :=
  match r with Ok a => Some a | Throw _ => None end.

(** ** The API's documented answers *)

(** A value React renders as text or as nothing. *)
Definition prim (v : jsval) : Prop :=
  match v with JArr _ | JObj _ => False | _ => True end.

Definition fld (fs : list (string * jsval)) (k : string) : jsval := default JUndefined (assoc k fs).

(** A search hit or a page as the API documents them: an object with a
    non-empty title, and a page id, a snippet and an extract that are
    numbers, strings or absent. *)
Definition good_item (v : jsval) : Prop :=
  match v with
  | JObj fs =>
      (∃ t, fld fs "title" = JStr t ∧ t ≠ "") ∧
      prim (fld fs "pageid") ∧ prim (fld fs "snippet") ∧ prim (fld fs "extract")
  | _ => False
  end.

(** The answers the remote API sends: a failure, a search whose
    [query.search] is an array of hits, or a random article whose
    [query.pages] holds one page. *)
Definition api_contract (k : callback) (o : jsres jsval) : Prop :=
  match o with
  | Throw _ => True
  | Ok data =>
      ∃ q, get_prop data "query" = Ok q ∧
      match k with
      | KSearch _ => ∃ xs, get_prop q "search" = Ok (JArr xs) ∧ Forall good_item xs
      | KRandom => ∃ key page, get_prop q "pages" = Ok (JObj [(key, page)]) ∧ good_item page
      end
  end.

(** The shapes [results] takes under that contract: the sentinel alone, or
    an array of hits or pages (empty included). *)
Definition results_ok (r : jsval) : Prop :=
  (∃ s, r = JArr [JStr s]) ∨ (∃ xs, r = JArr xs ∧ Forall good_item xs).

(** ** Lemmas *)

Lemma render_child_prim (v : jsval) : prim v → ∃ c, render_child v = Ok c.
Proof. destruct v; cbn; try done; eauto. Qed.

Lemma get_prop_obj (fs : list (string * jsval)) (k : string) :
  get_prop (JObj fs) k = Ok (fld fs k).
Proof. reflexivity. Qed.

Lemma truthy_str (t : string) : t ≠ "" → truthy (JStr t) = true.
Proof. intros Ht. cbn. by rewrite string_eqb_neq. Qed.

Lemma js_and_truthy (a b : jsval) : truthy a = true → js_and a b = b.
Proof. unfold js_and. by intros ->. Qed.

Lemma js_and_prim (a b : jsval) : prim a → prim b → prim (js_and a b).
Proof. unfold js_and. by destruct (truthy a). Qed.

Lemma render_item_good (p : profile) (ys : list jsval) (i : nat) (v : jsval) :
  good_item v → ∃ it, render_item p (JArr ys) i v = Ok it.
Proof.
  destruct v as [| | | | | |fs]; try done. intros ((t & Ht & Hne) & Hp & Hs & He).
  unfold render_item. rewrite !get_prop_obj, Ht. cbn [mbind res_bind].
  destruct (get_prop (JArr ys) "0") as [first|e] eqn:Hf; [|done].
  cbn [mbind res_bind]. rewrite truthy_str by done.
  destruct (render_child_prim _ (js_and_prim _ _ He He)) as [c Hc].
  destruct (truthy (fld fs "snippet")); cbn [mbind res_bind]; rewrite ?Hc;
    rewrite !js_and_truthy by (by apply truthy_str); cbn; eauto.
Qed.


Lemma render_items_good (p : profile) (ys : list jsval) (i : nat) (xs : list jsval) :
  Forall good_item xs → ∃ its, render_items p (JArr ys) i xs = Ok its.
Proof.
  intros Hxs. revert i. induction Hxs as [|x xs Hx _ IH]; intros i; cbn; [eauto|].
  destruct (render_item_good p ys i x Hx) as [it ->].
  destruct (IH (S i)) as [its ->]. cbn. eauto.
Qed.

(** The sentinel renders as one item whose heading is its own text: the
    fallback [results[0]] is the sentinel itself. *)
Lemma render_items_sentinel (p : profile) (s : string) :
  render_items p (JArr [JStr s]) 0 [JStr s] =
  Ok [{| key := 0; heading := [s]; item_body := BodyText [" "; " "]; href := None;
         link_text := [" "] |}].
Proof. reflexivity. Qed.

Lemma render_results_ok (a : app) : results_ok (results a) → ∃ v, render a = Ok v.
Proof.
  intros [[s Hs]|(xs & Hxs & Hgood)]; unfold render, map_results; rewrite ?Hs, ?Hxs.
  - destruct (loading a); cbn - [render_items]; rewrite render_items_sentinel; cbn; eauto.
  - destruct (render_items_good (langChoice (lang a)) xs 0 xs Hgood) as [its Hits].
    destruct (loading a); cbn - [render_items]; rewrite Hits; cbn; eauto.
Qed.

(** A user event leaves the results, or empties them. *)
Lemma step_user_results (w w' : world) (ev : event) :
  step w ev = Some w' → user_event ev →
  results (ui w') = results (ui w) ∨ results (ui w') = JArr [].
Proof.
  intros H Hu. step_cases H; try done; cbn; auto.
  unfold handleSubmit. destruct (0 <? String.length (searchTerm (ui w))); cbn; auto.
Qed.

Lemma settle_contract_results (a : app) (k : callback) (data : jsval) :
  api_contract k (Ok data) → results_ok (results (apply_effects a (emitted (settle k (Ok data))))).
Proof.
  intros (q & Hq & Hk). unfold settle, on_fulfilled. destruct k as [p|].
  - destruct Hk as (xs & Hs & Hgood).
    rewrite (mcatch_ok _ _ tt) by (by rewrite (onSearchFulfilled_array p data q xs)).
    rewrite (onSearchFulfilled_array p data q xs) by done. cbn.
    case_bool_decide; [left; eauto|right; eauto].
  - destruct Hk as (key & page & Hp & Hgood).
    rewrite (mcatch_ok _ _ tt) by (by rewrite (onRandomFulfilled_object data q [(key, page)])).
    rewrite (onRandomFulfilled_object data q [(key, page)]) by done. cbn.
    right. exists [page]. split; [done|by constructor].
Qed.

(** Under the contract, [results] keeps one of its documented shapes. *)
Lemma reachable_results_ok (w : world) :
  reachable_under api_contract w → results_ok (results (ui w)).
Proof.
  induction 1 as [|w ev w' Hr IH Hal Hs]; [right; by exists []|].
  destruct ev as [| | | | |i [data|e]];
    try (destruct (step_user_results _ _ _ Hs I) as [-> | ->]; [done|right; by exists []]).
  - apply step_settle in Hs as (r & Hr' & ->). rewrite run_ui. cbn [ui].
    apply settle_contract_results. by apply Hal.
  - apply step_settle in Hs as (r & _ & ->). rewrite run_ui. cbn [ui].
    by rewrite settle_throw_app.
Qed.

(** ** What the page shows *)

(** C3: as long as the API answers as documented, the page never crashes.
    In every world reachable under the API contract (failures included),
    rendering throws no error. *)
Theorem render_safe (w : world) :
  reachable_under api_contract w → res_ok (render (ui w)) = true.
Proof.
  intros Hr. destruct (render_results_ok (ui w) (reachable_results_ok w Hr)) as [v ->].
  reflexivity.
Qed.

Lemma render_safe_witness :
  reachable_under api_contract
    {| ui := {| results := JArr [hit "Cat" 6678]; searchTerm := ""; lang := false; loading := false |};
       inflight := []; log := [] |} ∧
  res_ok (render {| results := JArr [hit "Cat" 6678]; searchTerm := ""; lang := false; loading := false |}) = true.
Proof.
  assert (Hr : reachable_under api_contract
    {| ui := {| results := JArr [hit "Cat" 6678]; searchTerm := ""; lang := false; loading := false |};
       inflight := []; log := [] |}).
  { apply (run_events_reachable_under api_contract world_init _
             [EvInput "Cat"; EvSubmit; EvSettle 0 (Ok (search_response [hit "Cat" 6678]))]);
      [constructor| |reflexivity].
    cbn. repeat split. intros r Hr. injection Hr as <-. cbn.
    eexists; split; [reflexivity|]. eexists; split; [reflexivity|].
    repeat constructor; [eexists; split; [reflexivity|discriminate]]. }
  split; [exact Hr|]. exact (render_safe _ Hr).
Defined.

Lemma render_item_href_eq (p : profile) (rs result pid : jsval) (i : nat) (it : item) :
  get_prop result "pageid" = Ok pid → render_item p rs i result = Ok it →
  href it = if truthy pid then Some (article_url p pid) else None.
Proof.
  intros Hpid Hit. unfold render_item in Hit. res_inv Hit.
  rewrite Hpid in Ha. injection Ha as <-. by injection Hit as <-.
Qed.

(** C15: every item with a page id links to its article in the selected
    language: [https://<language>.wikipedia.org/w/index.php?curid=<pageid>]. *)
Theorem render_item_href (p : profile) (rs result : jsval) (i : nat) (n : Z) (it : item) :
  get_prop result "pageid" = Ok (JNum n) → n ≠ 0%Z → render_item p rs i result = Ok it →
  href it = Some ("https://" +:+ language p +:+ ".wikipedia.org/w/index.php?curid=" +:+ Z_to_dec n).
Proof.
  intros Hpid Hn Hit. rewrite (render_item_href_eq p rs result (JNum n) i it Hpid Hit).
  cbn. by rewrite (proj2 (Z.eqb_neq n 0) Hn).
Qed.

Lemma render_item_href_witness :
  href {| key := 0; heading := ["Cat"]; item_body := BodyHtml "<span class='searchmatch'>Cat</span>";
          href := Some "https://en.wikipedia.org/w/index.php?curid=6678";
          link_text := ["More about"; " "; "Cat"] |} =
  Some "https://en.wikipedia.org/w/index.php?curid=6678".
Proof.
  exact (render_item_href langEn (JArr [hit "Cat" 6678]) (hit "Cat" 6678) 0 6678 _
           eq_refl ltac:(discriminate) eq_refl).
Defined.

(** C16: the "no results" sentinel renders as one item headed by its own
    text, with no link target.  Above it is the results header of the
    current language, once the spinner is off. *)
Theorem render_sentinel (a : app) (s : string) :
  results a = JArr [JStr s] → loading a = false →
  option_map v_items (Some_res (render a)) =
    Some [{| key := 0; heading := [s]; item_body := BodyText [" "; " "]; href := None;
             link_text := [" "] |}] ∧
  option_map v_header (Some_res (render a)) = Some (Some (Lang.results (langChoice (lang a)))).
Proof.
  intros Hr Hl. unfold render, map_results. rewrite Hr, Hl. cbn - [render_items].
  rewrite render_items_sentinel. split; reflexivity.
Qed.

Lemma render_sentinel_witness :
  option_map v_header
    (Some_res (render {| results := JArr [JStr "Aucun résultat"]; searchTerm := ""; lang := true;
                         loading := false |})) = Some (Some "Votre recherche").
Proof.
  exact (proj2 (render_sentinel
    {| results := JArr [JStr "Aucun résultat"]; searchTerm := ""; lang := true; loading := false |}
    "Aucun résultat" eq_refl eq_refl)).
Defined.

(** C17: the spinner shows exactly while [loading] is true.  The results
    header shows exactly when the spinner is off and [results] is a
    non-empty array.  The button offers the other language. *)
Theorem render_spinner_header (a : app) (xs : list jsval) (v : view) :
  results a = JArr xs → render a = Ok v →
  v_spinner v = loading a ∧
  v_header v = (if loading a || bool_decide (xs = []) then None
                else Some (Lang.results (langChoice (lang a)))) ∧
  v_button v = button (langChoice (lang a)).
Proof.
  intros Hr Hv. unfold render in Hv. rewrite Hr in Hv. res_inv Hv.
  injection Hv as <-. cbn. repeat split.
  destruct (loading a); cbn in Ha |- *; [by simplify_eq|].
  res_inv Ha. simplify_eq/=. unfold gt_zero. cbn. by destruct xs.
Qed.

Lemma render_spinner_header_witness :
  v_header {| v_button := "FR 🇫🇷"; v_placeholder := "Enter your search term"; v_input := "";
              v_search := "Search"; v_random := "Random Article"; v_clear := "Clear results";
              v_spinner := true; v_header := None; v_items := [] |} = None.
Proof.
  exact (proj1 (proj2 (render_spinner_header
    {| results := JArr []; searchTerm := ""; lang := false; loading := true |} [] _ eq_refl eq_refl))).
Defined.





(** A random-article response as the API sends it, with the given pages. *)
Definition random_response (pages : list (string * jsval)) : jsval :=
  JObj [("batchcomplete", JStr ""); ("query", JObj [("pages", JObj pages)])].

Definition page (pageid : Z) (title extract : string) : jsval :=
  JObj [("pageid", JNum pageid); ("ns", JNum 0); ("title", JStr title); ("extract", JStr extract)].

(** C22: a random-article answer whose [pages] object does not hold
    exactly one page crashes the page.  [pages[Object.keys(pages)]] reads
    the key made of all the keys joined by commas, which is absent, so the
    one result is [undefined], and rendering reads [undefined.pageid].  It
    holds in any world, for any request of the flight list that is a
    random-article request. *)
Theorem random_pages_throws (w w' : world) (i : nat) (r : request) (fs : list (string * jsval)) :
  inflight w !! i = Some r → req_cb r = KRandom → length fs ≠ 1 →
  step w (EvSettle i (Ok (random_response fs))) = Some w' →
  results (ui w') = JArr [JUndefined] ∧
  render (ui w') = Throw (TypeError "Cannot read properties of undefined (reading 'pageid')").
Proof.
  intros Hi Hk Hlen Hs. apply step_settle in Hs as (r' & Hr' & ->).
  rewrite Hi in Hr'. injection Hr' as <-. rewrite run_ui. cbn [ui].
  unfold settle, on_fulfilled. rewrite Hk.
  rewrite (mcatch_ok _ _ tt)
    by (by rewrite (onRandomFulfilled_object (random_response fs) _ fs eq_refl eq_refl)).
  rewrite (onRandomFulfilled_object (random_response fs) _ fs eq_refl eq_refl).
  replace (match fs with [(_, v)] => v | _ => JUndefined end) with JUndefined
    by (destruct fs as [|[k v] [|]]; cbn in Hlen; done).
  split; reflexivity.
Qed.

Lemma random_pages_throws_witness :
  ∃ w', step {| ui := {| results := JArr []; searchTerm := ""; lang := false; loading := true |};
                inflight := [{| req_url := random_url langEn; req_cb := KRandom |}]; log := [] |}
             (EvSettle 0 (Ok (random_response [("17", page 17 "A" "a"); ("42", page 42 "B" "b")]))) = Some w' ∧
        results (ui w') = JArr [JUndefined] ∧
        render (ui w') = Throw (TypeError "Cannot read properties of undefined (reading 'pageid')").
Proof.
  eexists. split; [reflexivity|].
  apply (random_pages_throws
           {| ui := {| results := JArr []; searchTerm := ""; lang := false; loading := true |};
              inflight := [{| req_url := random_url langEn; req_cb := KRandom |}]; log := [] |}
           _ 0 {| req_url := random_url langEn; req_cb := KRandom |}
           [("17", page 17 "A" "a"); ("42", page 42 "B" "b")]);
    [reflexivity|reflexivity|cbn; lia|reflexivity].
Defined.

End Render.
