(* ===== verification/ClientSpec.v ===== *)
(** * The spec's search client, and where the source refines it

    Sections 3, 4.1 and 8 of the spec describe the client as an abstract
    machine: a [SearchState] (term, results, loading), a language, and at
    most one request in flight.  [astep] is that machine as an inductive
    step relation, one rule per operation of section 4.1, written from the
    spec and not from the code:
    - a submit is a no-op when the term is empty after JavaScript's
      [trim] ([blank]), and otherwise dispatches a search (section 4.1,
      property 3);
    - an empty search answer shows the sentinel of the active language
      (property 4);
    - a request's end resets [loading] on every path, failures included,
      as the corrected contract requires (property 7).

    [R] relates a world of [EventLoop] to an abstract state.
    [source_refines_spec] shows that every run of the source from related
    states is a run of the spec to a related state, as long as each event
    keeps [spec_assumption].  The assumption has two parts:
    - the spec's own hypotheses: at most one request in flight, and
      answers of the documented shape;
    - the places where the source leaves the spec: no failure, no
      whitespace-only submit, no language toggle while a search is in
      flight.
    [toggle_then_late_response] and [whitespace_submit_leaves_spec] show
    that the last two exclusions are real departures from the spec, not
    artefacts of [R]. *)

From S2P Require Import Prelude JsValue LangProfile Urls Handlers EventLoop.
Import Js Lang Urls Handlers EventLoop.

Module ClientSpec.

(** ** Empty after [trim] *)

(** The three-byte UTF-8 encodings of the white space and line
    terminators [String.prototype.trim] removes: U+FEFF, U+1680,
    U+2000-U+200A, U+2028, U+2029, U+202F, U+205F and U+3000. *)
Definition ws3 (a b c : N) : bool :=
  (((a =? 0xEF) && (b =? 0xBB) && (c =? 0xBF)) ||
  ((a =? 0xE1) && (b =? 0x9A) && (c =? 0x80)) ||
  ((a =? 0xE2) && (b =? 0x80) &&
     (((0x80 <=? c) && (c <=? 0x8A)) || (c =? 0xA8) || (c =? 0xA9) || (c =? 0xAF))) ||
  ((a =? 0xE2) && (b =? 0x81) && (c =? 0x9F)) ||
  ((a =? 0xE3) && (b =? 0x80) && (c =? 0x80)))%N.

(** Every character is one [trim] removes: an ASCII one of [is_ws],
    U+00A0, or one of [ws3]. *)
Fixpoint js_blank (cs : chars) : bool :=
  match cs with
  | [] => true
  | c :: r =>
      if is_ws c then js_blank r else
      match r with
      | d :: r1 =>
          if (code c =? 0xC2)%N && (code d =? 0xA0)%N then js_blank r1 else
          match r1 with
          | e :: r2 => if ws3 (code c) (code d) (code e) then js_blank r2 else false
          | [] => false
          end
      | [] => false
      end
  end.

Definition blank (t : string) : bool := js_blank (String.list_ascii_of_string t).

(** ** The abstract machine *)

Inductive akind : Type := ASearch | ARandom.

Record astate : Type := {
  a_term : string;
  a_results : list jsval;
  a_loading : bool;
  a_lang : bool;
  a_pending : option akind;
}.

Definition a_init : astate :=
  {| a_term := ""; a_results := []; a_loading := false; a_lang := false; a_pending := None |}.

Definition with_results (s : astate) (rs : list jsval) : astate :=
  {| a_term := a_term s; a_results := rs; a_loading := a_loading s; a_lang := a_lang s;
     a_pending := a_pending s |}.

(** A request ends: the spinner goes off and nothing is in flight. *)
Definition finish (s : astate) (rs : list jsval) : astate :=
  {| a_term := a_term s; a_results := rs; a_loading := false; a_lang := a_lang s;
     a_pending := None |}.

(** A request starts: results cleared, input cleared, spinner on. *)
Definition dispatch (s : astate) (k : akind) : astate :=
  {| a_term := ""; a_results := []; a_loading := true; a_lang := a_lang s; a_pending := Some k |}.

Inductive astep : astate → event → astate → Prop :=
| a_input s v :
    astep s (EvInput v)
      {| a_term := v; a_results := a_results s; a_loading := a_loading s; a_lang := a_lang s;
         a_pending := a_pending s |}
| a_toggle s :
    astep s EvToggle
      {| a_term := a_term s; a_results := []; a_loading := a_loading s; a_lang := negb (a_lang s);
         a_pending := a_pending s |}
| a_submit_blank s : blank (a_term s) = true → astep s EvSubmit s
| a_submit s : blank (a_term s) = false → a_pending s = None → astep s EvSubmit (dispatch s ASearch)
| a_random s : a_pending s = None → astep s EvRandom (dispatch s ARandom)
| a_clear s : astep s EvClear (with_results s [])
| a_hits s data q xs :
    a_pending s = Some ASearch →
    get_prop data "query" = Ok q → get_prop q "search" = Ok (JArr xs) →
    astep s (EvSettle 0 (Ok data))
      (finish s (if bool_decide (xs = []) then [JStr (noResults (langChoice (a_lang s)))] else xs))
| a_page s data q key page :
    a_pending s = Some ARandom →
    get_prop data "query" = Ok q → get_prop q "pages" = Ok (JObj [(key, page)]) →
    astep s (EvSettle 0 (Ok data)) (finish s [page])
| a_fail s k e :
    a_pending s = Some k → astep s (EvSettle 0 (Throw e)) (finish s (a_results s)).

(** Runs of the abstract machine. *)
Inductive asteps : astate → list event → astate → Prop :=
| asteps_nil s : asteps s [] s
| asteps_cons s ev s1 evs s2 : astep s ev s1 → asteps s1 evs s2 → asteps s (ev :: evs) s2.

(** ** The simulation relation *)

Definition kind_of (r : request) : akind :=
  match req_cb r with KSearch _ => ASearch | KRandom => ARandom end.

(** A search request's callback holds the profile of the language [l]. *)
Definition captured (l : bool) (r : request) : Prop :=
  match req_cb r with KSearch p => p = langChoice l | KRandom => True end.

(** The component state agrees field by field, the requests in flight
    are the pending one if any, and a search in flight was sent in the
    current language. *)
Definition R (w : world) (s : astate) : Prop :=
  results (ui w) = JArr (a_results s) ∧ searchTerm (ui w) = a_term s ∧
  loading (ui w) = a_loading s ∧ lang (ui w) = a_lang s ∧
  map kind_of (inflight w) = option_list (a_pending s) ∧
  Forall (captured (lang (ui w))) (inflight w).

(** An answer of the shape section 6 of the spec documents. *)
Definition documented (k : callback) (data : jsval) : Prop :=
  ∃ q, get_prop data "query" = Ok q ∧
  match k with
  | KSearch _ => ∃ xs, get_prop q "search" = Ok (JArr xs)
  | KRandom => ∃ key page, get_prop q "pages" = Ok (JObj [(key, page)])
  end.

(** What an event must keep, in the world it runs in, for the source to
    stay within the spec. *)
Definition spec_assumption (w : world) (ev : event) : Prop :=
  match ev with
  | EvSubmit => if blank (searchTerm (ui w)) then searchTerm (ui w) = "" else inflight w = []
  | EvRandom => inflight w = []
  | EvToggle => Forall (λ r, kind_of r = ARandom) (inflight w)
  | EvSettle i (Ok data) => ∀ r, inflight w !! i = Some r → documented (req_cb r) data
  | EvSettle _ (Throw _) => False
  | EvInput _ | EvClear => True
  end.

Fixpoint assumed (w : world) (evs : list event) : Prop :=
  match evs with
  | [] => True
  | ev :: evs' =>
      spec_assumption w ev ∧ match step w ev with Some w1 => assumed w1 evs' | None => True end
  end.

(** ** Lemmas *)

Lemma inflight_none (l : list request) : map kind_of l = option_list None → l = [].
Proof. by destruct l. Qed.

Lemma inflight_some (l : list request) (k : akind) :
  map kind_of l = option_list (Some k) → ∃ r, l = [r] ∧ kind_of r = k.
Proof. destruct l as [|r [|]]; cbn; intros H; simplify_eq; eauto. Qed.

Lemma random_captured (l : bool) (rs : list request) :
  Forall (λ r, kind_of r = ARandom) rs → Forall (captured l) rs.
Proof.
  intros H. eapply Forall_impl; [exact H|]. intros r. unfold kind_of, captured. by destruct (req_cb r).
Qed.

(** A search in flight in a related world: its callback holds the
    profile of the current language. *)
Lemma R_search_pending (w : world) (s : astate) :
  R w s → a_pending s = Some ASearch →
  ∃ r, inflight w = [r] ∧ req_cb r = KSearch (langChoice (lang (ui w))).
Proof.
  intros (_ & _ & _ & _ & Hf & Hc) Hp. rewrite Hp in Hf.
  apply inflight_some in Hf as (r & Hinf & Hk). rewrite Hinf in Hc.
  apply Forall_cons in Hc as [Hc _]. exists r. split; [done|].
  unfold kind_of in Hk. unfold captured in Hc. destruct (req_cb r); congruence.
Qed.

Lemma R_init : R world_init a_init.
Proof. repeat split. constructor. Qed.

Lemma asteps_two (s s' : astate) (e1 e2 : event) :
  asteps s [e1; e2] s' → ∃ s1, astep s e1 s1 ∧ astep s1 e2 s'.
Proof. intros H. invc H. match goal with H : asteps _ _ _ |- _ => invc H end. invc H6. eauto. Qed.

Ltac R_close := try unfold R; cbn; rewrite ?app_nil_r; repeat split; repeat constructor.

(** A user event the assumption allows, from related states. *)
Lemma refines_user (w w' : world) (s : astate) (ev : event) :
  R w s → spec_assumption w ev → user_event ev → step w ev = Some w' →
  ∃ s', astep s ev s' ∧ R w' s'.
Proof.
  intros (Hr & Ht & Hl & Hg & Hf & Hc) Hev Hu Hs.
  destruct w as [[res t lg ld] inf lo]; cbn in Hr, Ht, Hl, Hg, Hf, Hc; subst.
  destruct ev as [v| | | | |]; try done; cbn [spec_assumption ui searchTerm inflight] in Hev;
    cbn in Hs; simplify_eq.
  - eexists; split; [constructor|]. R_close; done.
  - eexists; split; [constructor|]. R_close; try done. by apply random_captured.
  - destruct (blank (a_term s)) eqn:Hb; cbn iota in Hev.
    + eexists; split; [by constructor|]. rewrite Hev. R_close; congruence.
    + subst inf. destruct (a_term s) as [|c t] eqn:Hterm; [done|].
      destruct (a_pending s) eqn:Hp; [done|].
      eexists; split; [apply a_submit; [by rewrite Hterm|done]|]. R_close.
  - destruct (a_pending s) eqn:Hp; [done|].
    eexists; split; [by apply a_random|]. R_close.
  - eexists; split; [constructor|]. R_close; done.
Qed.

(** A documented answer to the request in flight, from related states. *)
Lemma refines_settle (w w' : world) (s : astate) (i : nat) (data : jsval) :
  R w s → spec_assumption w (EvSettle i (Ok data)) → step w (EvSettle i (Ok data)) = Some w' →
  ∃ s', astep s (EvSettle i (Ok data)) s' ∧ R w' s'.
Proof.
  intros (Hr & Ht & Hl & Hg & Hf & Hc) Hev Hs.
  apply step_settle in Hs as (r & Hri & ->). destruct (Hev r Hri) as (q & Hq & Hk).
  destruct w as [[res t lg ld] inf lo]; cbn in Hr, Ht, Hl, Hg, Hf, Hc, Hri |- *; subst.
  destruct (a_pending s) as [k|] eqn:Hp; [|by rewrite (inflight_none _ Hf) in Hri].
  apply inflight_some in Hf as (r0 & -> & Hk0).
  destruct i as [|i]; [|done]. injection Hri as <-. apply Forall_cons in Hc as [Hc _].
  unfold R, settle, on_fulfilled. rewrite run_ui, run_inflight. cbn [ui inflight].
  unfold kind_of in Hk0. unfold captured in Hc. destruct (req_cb r0) as [p|]; subst k.
  - destruct Hk as (xs & Hxs). subst p.
    rewrite (mcatch_ok _ _ tt) by (by rewrite (onSearchFulfilled_array _ data q xs)).
    rewrite (onSearchFulfilled_array _ data q xs) by done.
    eexists; split; [by eapply a_hits|]. case_bool_decide; R_close.
  - destruct Hk as (key & page & Hpg).
    rewrite (mcatch_ok _ _ tt) by (by rewrite (onRandomFulfilled_object data q [(key, page)])).
    rewrite (onRandomFulfilled_object data q [(key, page)]) by done.
    eexists; split; [by eapply a_page|]. R_close.
Qed.

Lemma refines_step (w w' : world) (s : astate) (ev : event) :
  R w s → spec_assumption w ev → step w ev = Some w' → ∃ s', astep s ev s' ∧ R w' s'.
Proof.
  intros HR Hev Hs. destruct ev as [| | | | |i [data|e]];
    try (eapply refines_user; [exact HR|exact Hev|exact I|exact Hs]);
    [by eapply refines_settle|done].
Qed.

(** ** Refinement *)

(** C24: the source refines the spec's client on the runs that keep the
    spec's assumptions.  From a world related to a spec state, a run of
    events each of which keeps [spec_assumption] in the world it runs in
    is a run of the spec machine, and ends in a related state. *)
Theorem source_refines_spec (evs : list event) (w w' : world) (s : astate) :
  R w s → assumed w evs → run_events w evs = Some w' → ∃ s', asteps s evs s' ∧ R w' s'.
Proof.
  revert w s. induction evs as [|ev evs IH]; cbn; intros w s HR Ha Hrun.
  - simplify_eq. eexists; split; [constructor|done].
  - destruct Ha as [Hev Ha]. destruct (step w ev) as [w1|] eqn:Hs; [|done].
    destruct (refines_step w w1 s ev HR Hev Hs) as (s1 & Hst & HR1).
    destruct (IH w1 s1 HR1 Ha Hrun) as (s2 & Hst2 & HR2).
    eexists; split; [by econstructor|done].
Qed.

Lemma source_refines_spec_witness :
  ∃ s', asteps a_init [EvInput "Cat"; EvSubmit; EvSettle 0 (Ok (search_response [hit "Cat" 6678]))] s' ∧
        R {| ui := {| results := JArr [hit "Cat" 6678]; searchTerm := ""; lang := false; loading := false |};
             inflight := []; log := [] |} s'.
Proof.
  apply (source_refines_spec _ world_init _ a_init R_init); [|reflexivity].
  cbn. split; [done|]. split; [done|]. split; [|done].
  intros r Hr. injection Hr as <-. eexists; split; [reflexivity|]. eexists; reflexivity.
Defined.

(** ** Where the source leaves the spec *)

(** C20: switching the language does not cancel a search in flight, and
    the late answer shows the old language's sentinel.  From any world
    related to a spec state with a search pending, toggle the language,
    then let the search come back empty.  The source shows the sentinel
    of the language the search was sent in.  The spec can run the same
    events, and every such run shows the sentinel of the active language,
    so no spec state matches the source's. *)
Theorem toggle_then_late_response (w : world) (s : astate) (data q : jsval) :
  R w s → a_pending s = Some ASearch →
  get_prop data "query" = Ok q → get_prop q "search" = Ok (JArr []) →
  ∃ w', run_events w [EvToggle; EvSettle 0 (Ok data)] = Some w' ∧
    results (ui w') = JArr [JStr (noResults (langChoice (lang (ui w))))] ∧
    lang (ui w') = negb (lang (ui w)) ∧
    (∃ s', asteps s [EvToggle; EvSettle 0 (Ok data)] s') ∧
    ∀ s', asteps s [EvToggle; EvSettle 0 (Ok data)] s' →
      a_results s' = [JStr (noResults (langChoice (lang (ui w'))))] ∧ ¬ R w' s'.
Proof.
  intros HR Hp Hq Hs. destruct (R_search_pending w s HR Hp) as (r & Hinf & Hcb).
  cbn [run_events]. change (step w EvToggle) with (Some (run w (handleLanguage (ui w)))).
  cbn [mbind option_bind].
  rewrite (step_settle_hits _ 0 r (langChoice (lang (ui w))) data q [])
    by (rewrite ?run_inflight, ?Hinf; done).
  cbn [mbind option_bind run_events]. eexists; split; [reflexivity|].
  rewrite bool_decide_true by done. cbn. split; [done|]. split; [done|].
  split.
  { eexists. econstructor; [apply a_toggle|]. econstructor; [|constructor].
    by eapply a_hits. }
  intros s' Hst. apply asteps_two in Hst as (s1 & Ht1 & Ht2). invc Ht1. invc Ht2; cbn in *; [|congruence].
  rewrite Hq in *. simplify_eq. rewrite Hs in *. simplify_eq.
  rewrite bool_decide_true by done. destruct HR as (_ & _ & _ & Hg & _). rewrite Hg.
  split; [done|]. intros (Hr' & _). cbn in Hr'. by destruct (a_lang s).
Qed.

Lemma toggle_then_late_response_witness :
  ∃ w', run_events {| ui := {| results := JArr []; searchTerm := ""; lang := false; loading := true |};
                      inflight := [{| req_url := search_url langEn "Zzxq"; req_cb := KSearch langEn |}];
                      log := [] |}
          [EvToggle; EvSettle 0 (Ok (search_response []))] = Some w' ∧
    results (ui w') = JArr [JStr "No results found"] ∧ lang (ui w') = true ∧
    (∃ s', asteps {| a_term := ""; a_results := []; a_loading := true; a_lang := false;
                     a_pending := Some ASearch |} [EvToggle; EvSettle 0 (Ok (search_response []))] s') ∧
    ∀ s', asteps {| a_term := ""; a_results := []; a_loading := true; a_lang := false;
                    a_pending := Some ASearch |} [EvToggle; EvSettle 0 (Ok (search_response []))] s' →
      a_results s' = [JStr (noResults (langChoice (lang (ui w'))))] ∧ ¬ R w' s'.
Proof.
  destruct (toggle_then_late_response
    {| ui := {| results := JArr []; searchTerm := ""; lang := false; loading := true |};
       inflight := [{| req_url := search_url langEn "Zzxq"; req_cb := KSearch langEn |}]; log := [] |}
    {| a_term := ""; a_results := []; a_loading := true; a_lang := false; a_pending := Some ASearch |}
    (search_response []) (search_query []) ltac:(R_close) eq_refl eq_refl eq_refl)
    as (w' & Hrun & Hres & Hlang & Hex & Hspec).
  exists w'. split; [exact Hrun|]. split; [exact Hres|]. split; [exact Hlang|]. split; [exact Hex|exact Hspec].
Defined.

(** C25: a term made only of white space is searched, where the spec makes
    the submit a no-op.  From any world related to a spec state whose term
    is not empty but empty after [trim], the submit button adds a request
    to the flight list.  The spec's submit leaves the state as it is, and
    no step of the spec's submit reaches a state related to the
    source's. *)
Theorem whitespace_submit_leaves_spec (w : world) (s : astate) :
  R w s → a_term s ≠ "" → blank (a_term s) = true →
  ∃ w', step w EvSubmit = Some w' ∧ length (inflight w') = S (length (inflight w)) ∧
        astep s EvSubmit s ∧ ∀ s', astep s EvSubmit s' → ¬ R w' s'.
Proof.
  intros (Hr & Ht & Hl & Hg & Hf & Hc) Hne Hb.
  destruct w as [[res t lg ld] inf lo]; cbn in Hr, Ht, Hl, Hg, Hf, Hc; subst.
  destruct (a_term s) as [|c t] eqn:Hterm; [done|].
  eexists; split; [reflexivity|]. unfold run. cbn. rewrite length_app. split; [cbn; lia|].
  split; [apply a_submit_blank; by rewrite Hterm|].
  intros s' Hst (_ & _ & _ & _ & Hf' & _). invc Hst; [|by rewrite Hterm in *; congruence].
  cbn in Hf'. rewrite <- Hf in Hf'. apply (f_equal length) in Hf'.
  rewrite !length_map, length_app in Hf'. cbn in Hf'. lia.
Qed.

Lemma whitespace_submit_leaves_spec_witness :
  ∃ w', step {| ui := {| results := JArr []; searchTerm := "   "; lang := false; loading := false |};
                inflight := []; log := [] |} EvSubmit = Some w' ∧ length (inflight w') = 1 ∧
        astep {| a_term := "   "; a_results := []; a_loading := false; a_lang := false;
                 a_pending := None |} EvSubmit
              {| a_term := "   "; a_results := []; a_loading := false; a_lang := false;
                 a_pending := None |} ∧
        ∀ s', astep {| a_term := "   "; a_results := []; a_loading := false; a_lang := false;
                       a_pending := None |} EvSubmit s' → ¬ R w' s'.
Proof.
  apply whitespace_submit_leaves_spec; [R_close|discriminate|reflexivity].
Defined.

End ClientSpec.
